(** * N-body simulation over MPI ([project-2/nbody-mpi.c])

    A shallow embedding of the program and the properties of its
    partitioner, force kernel, integrator, step loop and trace output.

    Modelling conventions.
    - C [float] is IEEE-754 binary32 and C [double] is binary64, every
      operation rounded on its own to nearest-even (no contraction, no
      excess precision).  The operations are those of the Standard
      Library's executable specification [SpecFloat].
    - [size_t] is 64 bits wide; arithmetic on it wraps modulo [2^64].
    - An access outside an allocated block and an out-of-range conversion
      of a [float] are undefined behaviour: the model computes in [option]
      and [None] stands for it.  [int] is 32 bits wide; the conversion to
      [int] of a [size_t] above [INT_MAX] is implementation-defined, and a
      collective called with such a count is given no meaning either
      ([None]).
    - [malloc] succeeds or not as the C library's [malloc_ok] says; freshly
      allocated memory has indeterminate contents, supplied by a [heap]
      oracle.
    - [assert] is enabled ([NDEBUG] is not defined): a failed assertion
      writes to the error stream and aborts the process.
    - [stdout] is the sequence of lines that have reached the output, each
      kept with the values it formats.  The program never flushes [stdout]:
      a process that returns from [main] has all its lines written; a
      process that is aborted, or is left waiting, has written what is no
      longer in the buffer of the stream.  On a line buffered [stdout] (an
      interactive device) that is every line; on a fully buffered one (a
      file or a pipe) it is the whole blocks the text has filled, the buffer
      being written when it is full and [abort] leaving it unwritten.
      [stderr] is not buffered.
    - The MPI job is modelled in lock step: every rank runs the same
      program and the collectives ([MPI_Bcast], [MPI_Allgather]) are
      functions from the ranks' buffers to the ranks' buffers. *)

From Stdlib Require Import ZArith Lia List Bool Ascii String.
From Stdlib Require Import Floats.SpecFloat.
From stdpp Require Import base option list.

(** ** Single and double precision arithmetic *)

Definition float := spec_float.

Module F32.
Definition prec : Z := 24.
Definition emax : Z := 128.

Definition add : float -> float -> float := SFadd prec emax.
Definition sub : float -> float -> float := SFsub prec emax.
Definition mul : float -> float -> float := SFmul prec emax.
Definition div : float -> float -> float := SFdiv prec emax.
Definition sqrt : float -> float := SFsqrt prec emax.

(** Conversion of an integer ([(float) n]) and of the dyadic [m * 2^e]. *)
Definition of_Z (n : Z) : float := binary_normalize prec emax n 0 false.
Definition dyadic (m e : Z) : float := binary_normalize prec emax m e false.

Definition zero : float := S754_zero false.
Definition one : float := Eval cbv in of_Z 1.
Definition two : float := Eval cbv in of_Z 2.
Definition half : float := Eval cbv in dyadic 1 (-1).

Definition is_finite (f : float) : bool :=
  match f with
  | S754_zero _ | S754_finite _ _ _ => true
  | S754_infinity _ | S754_nan => false
  end.

Definition is_zero (f : float) : bool :=
  match f with S754_zero _ => true | _ => false end.

(** [a > 0] as C evaluates it. *)
Definition positive (f : float) : bool := SFltb zero f.

(** The integral part (rounding toward zero) and the floor of a finite
    value. *)
Definition trunc (f : float) : option Z :=
  match f with
  | S754_zero _ => Some 0%Z
  | S754_finite s m e => Some (cond_Zopp s (Z.shiftl (Z.pos m) e))
  | S754_infinity _ | S754_nan => None
  end.

Definition floor (f : float) : option Z :=
  match f with
  | S754_zero _ => Some 0%Z
  | S754_finite s m e => Some (Z.shiftl (cond_Zopp s (Z.pos m)) e)
  | S754_infinity _ | S754_nan => None
  end.

(** The same number: equal, or zeros of either sign. *)
Definition same_number (a b : float) : Prop :=
  a = b \/ (is_zero a = true /\ is_zero b = true).
End F32.

Module F64.
Definition prec : Z := 53.
Definition emax : Z := 1024.

Definition add : float -> float -> float := SFadd prec emax.
Definition mul : float -> float -> float := SFmul prec emax.

(** Widening of a [float] (exact) and narrowing to [float] (rounded). *)
Definition convert (p e : Z) (f : float) : float :=
  match f with
  | S754_finite s m ex => binary_normalize p e (cond_Zopp s (Z.pos m)) ex s
  | _ => f
  end.
Definition of_float : float -> float := convert prec emax.
Definition to_float : float -> float := convert F32.prec F32.emax.

(** [M_PI] of [<math.h>]: 0x400921FB54442D18. *)
Definition M_PI : float := S754_finite false 7074237752028440 (-51).
End F64.

(** [size_t]: 64 bits, wrapping. *)
Definition SIZE_WIDTH : Z := 64.
Definition wrap (z : Z) : Z := (z mod 2 ^ SIZE_WIDTH)%Z.
Definition INT_MAX : Z := 2147483647.

(** Conversion of a [size_t] to [int], as for the [count] of a collective:
    the value when it is representable. *)
Definition to_int (z : Z) : option Z :=
  if (z <=? INT_MAX)%Z then Some z else None.

(** Conversion of a [float] to [size_t]: the fractional part is discarded;
    undefined when the integral part is not representable. *)
Definition to_size_t (f : float) : option Z :=
  z ← F32.trunc f;
  if ((0 <=? z) && (z <? 2 ^ SIZE_WIDTH))%Z then Some z else None.

(** ** Types *)

Record body_t := Body {
  x : float; y : float;
  ax : float; ay : float;
  vx : float; vy : float;
  mass : float
}.

Definition set_x (b : body_t) (v : float) : body_t :=
  Body v (y b) (ax b) (ay b) (vx b) (vy b) (mass b).
Definition set_y (b : body_t) (v : float) : body_t :=
  Body (x b) v (ax b) (ay b) (vx b) (vy b) (mass b).
Definition set_ax (b : body_t) (v : float) : body_t :=
  Body (x b) (y b) v (ay b) (vx b) (vy b) (mass b).
Definition set_ay (b : body_t) (v : float) : body_t :=
  Body (x b) (y b) (ax b) v (vx b) (vy b) (mass b).
Definition set_vx (b : body_t) (v : float) : body_t :=
  Body (x b) (y b) (ax b) (ay b) v (vy b) (mass b).
Definition set_vy (b : body_t) (v : float) : body_t :=
  Body (x b) (y b) (ax b) (ay b) (vx b) v (mass b).

Definition sizeof_body_t : Z := 28.
Definition sizeof_float : Z := 4.

(** ** Constants *)

Definition Default_Debug_Acceleration_Scale : float :=
  Eval cbv in F32.of_Z 100.

(** ** The C library and the heap *)

(** A line of [stdout], by the [printf] format that produced it; and the
    first [bytes] bytes of a line, when the end of the process has cut it. *)
Inductive out_line :=
  | Line_zu (n : Z)            (* "%zu\n" *)
  | Line_f (a : float)         (* "%f\n" *)
  | Line_ff (a b : float)      (* "%f %f\n" *)
  | Cut (line : out_line) (bytes : nat).

(** How a stream is buffered (C11 7.21.3). *)
Inductive buffering :=
  | Line_buffered                 (* written at every new-line *)
  | Fully_buffered (size : nat).  (* written when [size] bytes are held *)

Record libc := {
  RAND_MAX : Z;
  (** the sequence [rand()] returns in a process that never calls [srand] *)
  rand : nat -> Z;
  cosf : float -> float;
  sinf : float -> float;
  strtof : string -> float;
  strtol : string -> Z;
  (** whether [malloc] of that many bytes returns a block *)
  malloc_ok : Z -> bool;
  (** how [stdout] is buffered when the program starts: line buffered when
      it refers to an interactive device, fully buffered otherwise *)
  stdout_buffering : buffering;
  (** the number of bytes [printf] writes for a line *)
  printf_length : out_line -> nat
}.

(** Indeterminate contents of fresh blocks, per rank and index. *)
Record heap := {
  fresh_bodies : nat -> nat -> body_t;
  fresh_local_bodies : nat -> nat -> body_t;
  fresh_accelerations : nat -> float
}.

Definition malloc {A} (fresh : nat -> A) (bytes elt : Z) : list A :=
  fresh <$> seq 0 (Z.to_nat (bytes / elt)).

(** A store through a pointer: undefined outside the block. *)
Definition store {A} (buf : list A) (i : nat) (v : A) : option (list A) :=
  if decide (i < length buf) then Some (<[i := v]> buf) else None.

(** [for (i = lo; count iterations; ++i) body]. *)
Fixpoint for_loop {T} (count i : nat) (body : nat -> T -> option T) (s : T)
  : option T :=
  match count with
  | O => Some s
  | S c => s' ← body i s; for_loop c (S i) body s'
  end.

(** ** Simulation *)

Definition unit_random (c : libc) (calls : nat) : float * nat :=
  (F32.div (F32.of_Z (rand c calls)) (F32.of_Z (RAND_MAX c)), S calls).

Definition generate_body (c : libc) (initial_body_mass debug_acceleration_scale : float)
    (body_count : Z) (i : nat) (calls : nat) : body_t * nat :=
  let '(r0, calls) := unit_random c calls in
  let angle :=
    F64.to_float
      (F64.add
         (F64.mul
            (F64.of_float
               (F32.mul (F32.div (F32.of_Z (Z.of_nat i)) (F32.of_Z body_count))
                        F32.two))
            F64.M_PI)
         (F64.of_float (F32.mul (F32.sub r0 F32.half) F32.half))) in
  let '(r1, calls) := unit_random c calls in
  let '(r2, calls) := unit_random c calls in
  let '(r3, calls) := unit_random c calls in
  let body_mass := F32.mul initial_body_mass (F32.add r3 F32.half) in
  let '(random, calls) := unit_random c calls in
  (Body r1 r2 F32.zero F32.zero
        (F32.mul (F32.mul (cosf c angle) debug_acceleration_scale) random)
        (F32.mul (F32.mul (sinf c angle) debug_acceleration_scale) random)
        body_mass,
   calls).

Definition generate_debug_data (c : libc)
    (initial_body_mass debug_acceleration_scale : float)
    (bodies : list body_t) (body_count : Z) : option (list body_t) :=
  fst <$>
  for_loop (Z.to_nat body_count) 0
    (fun i '(bodies, calls) =>
       let '(body, calls) :=
         generate_body c initial_body_mass debug_acceleration_scale
                       body_count i calls in
       bodies ← store bodies i body;
       Some (bodies, calls))
    (bodies, 0).

Definition calculate_newton_gravity_acceleration
    (simulation_softening_length_squared : float)
    (first_body second_body : body_t) : float * float :=
  let ax0 := F32.zero in
  let ay0 := F32.zero in
  let galactic_plane_r_x := F32.sub (x second_body) (x first_body) in
  let galactic_plane_r_y := F32.sub (y second_body) (y first_body) in
  let distance_squared :=
    F32.add
      (F32.add (F32.mul galactic_plane_r_x galactic_plane_r_x)
               (F32.mul galactic_plane_r_y galactic_plane_r_y))
      simulation_softening_length_squared in
  let distance_squared_cubed :=
    F32.mul (F32.mul distance_squared distance_squared) distance_squared in
  let inverse := F32.div F32.one (F32.sqrt distance_squared_cubed) in
  let scale := F32.mul (mass second_body) inverse in
  (F32.add ax0 (F32.mul galactic_plane_r_x scale),
   F32.add ay0 (F32.mul galactic_plane_r_y scale)).

Definition integrate (body : body_t) (delta_time : float) : body_t :=
  let body := set_vx body (F32.add (vx body) (F32.mul (ax body) delta_time)) in
  let body := set_vy body (F32.add (vy body) (F32.mul (ay body) delta_time)) in
  let body := set_x body (F32.add (x body) (F32.mul (vx body) delta_time)) in
  let body := set_y body (F32.add (y body) (F32.mul (vy body) delta_time)) in
  body.

(** ** The program: output, exit status, per-rank memory *)

Inductive err_line :=
  | Usage (program : string)
  | Assertion_failed (expr : string).

Inductive status :=
  | EXIT_SUCCESS
  | EXIT_FAILURE
  | SIGABRT      (* a failed [assert] *)
  | BLOCKED      (* waiting in a collective for a rank that has stopped *)
  | UNDEFINED.   (* no meaning: undefined behaviour, or a count no [int] holds *)

Record result := Result {
  stdout : list out_line;
  stderr : list err_line;
  exit_status : status
}.

(** The values [main] reads from [argv]. *)
Record config := Config {
  time_period : float;
  delta_time : float;
  body_count : Z;
  initial_body_mass : float;
  simulation_softening_length_squared : float;
  debug_acceleration_scale : float
}.

Definition arg (argv : list string) (i : nat) : string := nth i argv EmptyString.
Definition argc (argv : list string) : Z := Z.of_nat (length argv).

Definition parse_arguments (c : libc) (argv : list string) : config :=
  let softening_length := strtof c (arg argv 5) in
  {| time_period := strtof c (arg argv 1);
     delta_time := strtof c (arg argv 2);
     body_count := wrap (strtol c (arg argv 3));
     initial_body_mass := strtof c (arg argv 4);
     simulation_softening_length_squared :=
       F32.mul softening_length softening_length;
     debug_acceleration_scale :=
       if (6 <? argc argv)%Z then strtof c (arg argv 6)
       else Default_Debug_Acceleration_Scale |}.

(** The partitioner (lines 232-248). *)
Definition bodies_per_process (body_count : Z) (w_size : nat) : Z :=
  (body_count / Z.of_nat w_size)%Z.
Definition slice_start (rank : nat) (bodies_per_process : Z) : Z :=
  wrap (Z.of_nat rank * bodies_per_process).
Definition divisible (body_count : Z) (w_size : nat) : bool :=
  (body_count mod Z.of_nat w_size =? 0)%Z.

Definition iterations_of (cfg : config) : option Z :=
  to_size_t (F32.div (time_period cfg) (delta_time cfg)).
Definition acceleration_entries (iterations body_count : Z) : Z :=
  wrap (wrap (iterations * body_count) * 2).

Definition print_body (body : body_t) : list out_line :=
  [Line_ff (x body) (y body); Line_ff (ax body) (ay body);
   Line_ff (vx body) (vy body); Line_f (mass body)].

Definition print_header (cfg : config) : list out_line :=
  [Line_zu (body_count cfg); Line_f (time_period cfg); Line_f (delta_time cfg)].

Definition print_bodies (bodies : list body_t) (body_count : Z)
    (out : list out_line) : option (list out_line) :=
  for_loop (Z.to_nat body_count) 0
    (fun i out => body ← bodies !! i; Some (out ++ print_body body))
    out.

Record process := Process {
  bodies : list body_t;
  local_bodies : list body_t
}.

Inductive startup :=
  | Stopped (r : result)
  | Ready (p : process) (accelerations : list float) (printed : list out_line).

(** The first [n] bytes of the text of [out]: whole lines, and the part of
    the line that the count cuts. *)
Fixpoint first_bytes (length_of : out_line -> nat) (n : nat)
    (out : list out_line) : list out_line :=
  match out with
  | [] => []
  | l :: out =>
    if n =? 0 then []
    else if length_of l <=? n
         then l :: first_bytes length_of (n - length_of l) out
         else [Cut l n]
  end.

Definition text_length (length_of : out_line -> nat) (out : list out_line)
  : nat :=
  foldr (fun l n => length_of l + n) 0 out.

(** What has reached the output of the lines [printf] was called for, in a
    process that has not flushed [stdout]: the lines that ended, or the
    blocks that filled the buffer. *)
Definition transmitted (c : libc) (printed : list out_line) : list out_line :=
  match stdout_buffering c with
  | Line_buffered => printed
  | Fully_buffered size =>
    first_bytes (printf_length c)
      (text_length (printf_length c) printed / size * size) printed
  end.

(** A failed [assert]: the message goes to [stderr] and [abort] ends the
    process, the buffer of [stdout] unwritten. *)
Definition aborted (c : libc) (printed : list out_line) (expr : string)
  : startup :=
  Stopped (Result (transmitted c printed) [Assertion_failed expr] SIGABRT).

(** Lines 180-244: what one rank does before the broadcast. *)
Definition start (c : libc) (h : heap) (w_size : nat) (argv : list string)
    (rank : nat) : startup :=
  if (argc argv <? 6)%Z then
    Stopped (Result [] [Usage (arg argv 0)] EXIT_FAILURE)
  else
    let cfg := parse_arguments c argv in
    let bytes := wrap (sizeof_body_t * body_count cfg) in
    if negb (malloc_ok c bytes) then aborted c [] "bodies != NULL"
    else
      let bodies := malloc (fresh_bodies h rank) bytes sizeof_body_t in
      let generated :=
        if decide (rank = 0) then
          bodies ← generate_debug_data c (initial_body_mass cfg)
                     (debug_acceleration_scale cfg) bodies (body_count cfg);
          out ← print_bodies bodies (body_count cfg) (print_header cfg);
          Some (bodies, out)
        else Some (bodies, []) in
      match generated with
      | None => Stopped (Result [] [] UNDEFINED)
      | Some (bodies, printed) =>
        if negb (divisible (body_count cfg) w_size) then
          aborted c printed "body_count % w_size == 0"
        else
          let per_process := bodies_per_process (body_count cfg) w_size in
          let bytes := wrap (sizeof_body_t * per_process) in
          if negb (malloc_ok c bytes) then
            aborted c printed "local_bodies != NULL"
          else
            let local_bodies :=
              malloc (fresh_local_bodies h rank) bytes sizeof_body_t in
            match iterations_of cfg with
            | None => Stopped (Result [] [] UNDEFINED)
            | Some iterations =>
              let entries := acceleration_entries iterations (body_count cfg) in
              if decide (rank = 0) then
                let bytes := wrap (sizeof_float * entries) in
                if negb (malloc_ok c bytes) then
                  aborted c printed "accelerations != NULL"
                else
                  Ready (Process bodies local_bodies)
                        (malloc (fresh_accelerations h) bytes sizeof_float)
                        printed
              else Ready (Process bodies local_bodies) [] printed
            end
      end.

(** ** The collectives *)

(** [MPI_Bcast(buf, count, ...)] at a receiving rank. *)
Definition MPI_Bcast {A} (root_buf : list A) (count : nat) (buf : list A)
  : option (list A) :=
  if decide (count <= length root_buf /\ count <= length buf)
  then Some (take count root_buf ++ drop count buf) else None.

(** [MPI_Allgather(sendbuf, count, ..., recvbuf, count, ...)] at one rank:
    rank [r]'s [count] elements land at [recvbuf + r * count]. *)
Definition MPI_Allgather {A} (sendbufs : list (list A)) (count : nat)
    (recvbuf : list A) : option (list A) :=
  if forallb (fun s => count <=? length s) sendbufs
     && (length sendbufs * count <=? length recvbuf)
  then Some (concat (take count <$> sendbufs)
             ++ drop (length sendbufs * count) recvbuf)
  else None.

(** ** One step (lines 251-308) *)

(** Lines 263-278: the sum over the other bodies. *)
Definition accumulate (softening_squared : float) (bodies : list body_t)
    (body_count : Z) (i : nat) (first_body : body_t) : option (float * float) :=
  for_loop (Z.to_nat body_count) 0
    (fun j '(total_ax, total_ay) =>
       second_body ← bodies !! j;
       if decide (i = j) then Some (total_ax, total_ay)
       else
         let '(ax, ay) :=
           calculate_newton_gravity_acceleration
             softening_squared first_body second_body in
         Some (F32.add total_ax ax, F32.add total_ay ay))
    (F32.zero, F32.zero).

(** Lines 259-284: the accelerations of the owned bodies, written to the
    store and copied to [local_bodies]. *)
Definition compute_accelerations (softening_squared : float) (body_count : Z)
    (start per_process : Z) (p : process) : option process :=
  '(bodies, local_bodies, _) ←
    for_loop (Z.to_nat (wrap (start + per_process) - start)) (Z.to_nat start)
      (fun i '(bodies, local_bodies, p) =>
         first_body ← bodies !! i;
         '(total_ax, total_ay) ←
           accumulate softening_squared bodies body_count i first_body;
         let first_body := set_ay (set_ax first_body total_ax) total_ay in
         bodies ← store bodies i first_body;
         local_bodies ← store local_bodies p first_body;
         Some (bodies, local_bodies, S p))
      (bodies p, local_bodies p, 0);
  Some (Process bodies local_bodies).

(** Lines 287-291: the owned bodies advance. *)
Definition integrate_local (delta_time : float) (per_process : Z)
    (p : process) : option process :=
  local_bodies ←
    for_loop (Z.to_nat per_process) 0
      (fun i local_bodies =>
         body ← local_bodies !! i;
         store local_bodies i (integrate body delta_time))
      (local_bodies p);
  Some (Process (bodies p) local_bodies).

Definition worker_step (cfg : config) (w_size : nat) (rank : nat)
    (p : process) : option process :=
  let per_process := bodies_per_process (body_count cfg) w_size in
  p ← compute_accelerations (simulation_softening_length_squared cfg)
        (body_count cfg) (slice_start rank per_process) per_process p;
  integrate_local (delta_time cfg) per_process p.

(** Every rank of the job, in rank order. *)
Fixpoint each_rank {A B} (f : nat -> A -> option B) (rank : nat) (l : list A)
  : option (list B) :=
  match l with
  | [] => Some []
  | a :: l => b ← f rank a; bs ← each_rank f (S rank) l; Some (b :: bs)
  end.

(** Lines 298-307: the leader appends the accelerations to the trace. *)
Definition record_accelerations (body_count : Z) (bodies : list body_t)
    (accelerations : list float) (next_acceleration : nat)
  : option (list float * nat) :=
  (* [int i] against [size_t body_count]: [++i] overflows past [INT_MAX] *)
  if (INT_MAX <? body_count)%Z then None
  else
    for_loop (Z.to_nat body_count) 0
      (fun i '(accelerations, next_acceleration) =>
         body ← bodies !! i;
         accelerations ← store accelerations next_acceleration (ax body);
         accelerations ← store accelerations (S next_acceleration) (ay body);
         Some (accelerations, S (S next_acceleration)))
      (accelerations, next_acceleration).

Definition world : Type := list process * list float * nat.

(** One iteration of the loop over [k], on all ranks. *)
Definition step (cfg : config) (w_size : nat) (s : world) : option world :=
  let '(procs, accelerations, next_acceleration) := s in
  procs ← each_rank (worker_step cfg w_size) 0 procs;
  per_process ← to_int (bodies_per_process (body_count cfg) w_size);
  procs ← each_rank
             (fun _ p =>
                bodies ← MPI_Allgather (local_bodies <$> procs)
                           (Z.to_nat per_process) (bodies p);
                Some (Process bodies (local_bodies p)))
             0 procs;
  leader ← procs !! 0;
  '(accelerations, next_acceleration) ←
    record_accelerations (body_count cfg) (bodies leader)
                         accelerations next_acceleration;
  Some (procs, accelerations, next_acceleration).

(** Lines 311-316. *)
Definition print_accelerations (accelerations : list float) (entries : Z)
    (out : list out_line) : option (list out_line) :=
  for_loop (Z.to_nat ((entries + 1) / 2)) 0
    (fun k out =>
       a ← accelerations !! (2 * k);
       b ← accelerations !! (2 * k + 1);
       Some (out ++ [Line_ff a b]))
    out.

(** ** The job *)

Definition ready (s : startup) : option (process * list float * list out_line) :=
  match s with
  | Ready p a o => Some (p, a, o)
  | Stopped _ => None
  end.

Definition stopped_result (c : libc) (s : startup) : result :=
  match s with
  | Stopped r => r
  | Ready _ _ printed => Result (transmitted c printed) [] BLOCKED
  end.

(** Line 247: every rank receives the leader's store, [count] bodies of
    it, the body count as an [int]. *)
Definition broadcast (cfg : config) (procs : list process)
  : option (list process) :=
  count ← to_int (body_count cfg);
  root ← procs !! 0;
  each_rank
    (fun _ p =>
       bodies ← MPI_Bcast (bodies root) (Z.to_nat count) (bodies p);
       Some (Process bodies (local_bodies p)))
    0 procs.

(** Lines 246-308: the broadcast and the first [k] steps. *)
Definition run_steps (cfg : config) (w_size : nat) (k : nat)
    (procs : list process) (accelerations : list float) : option world :=
  procs ← broadcast cfg procs;
  for_loop k 0 (fun _ => step cfg w_size) (procs, accelerations, 0).

(** Lines 246-308 once every rank has reached the broadcast: the trace
    buffer of the leader after all the steps. *)
Definition simulate (cfg : config) (w_size : nat) (iterations : Z)
    (procs : list process) (accelerations : list float)
  : option (list float) :=
  '(_, accelerations, _) ←
    run_steps cfg w_size (Z.to_nat iterations) procs accelerations;
  Some accelerations.

Definition main (c : libc) (h : heap) (w_size : nat) (argv : list string)
  : list result :=
  let starts := start c h w_size argv <$> seq 0 w_size in
  match mapM ready starts with
  | None => stopped_result c <$> starts
  | Some rs =>
    let cfg := parse_arguments c argv in
    let printed := default [] (snd <$> rs !! 0) in
    let finished :=
      iterations ← iterations_of cfg;
      accelerations ←
        simulate cfg w_size iterations (fst ∘ fst <$> rs)
                 (default [] (snd ∘ fst <$> rs !! 0));
      print_accelerations accelerations
        (acceleration_entries iterations (body_count cfg)) printed in
    match finished with
    | None => (fun _ => Result [] [] UNDEFINED) <$> rs
    | Some out =>
      imap (fun rank _ =>
              Result (if decide (rank = 0) then out else []) [] EXIT_SUCCESS)
           rs
    end
  end.

(** ** A concrete C library and heap, for running the model *)

Module Demo.
(** Decimal digits after an optional sign, as [strtol(s, NULL, 10)] reads
    them. *)
Fixpoint digits (s : string) (acc : Z) : Z :=
  match s with
  | String a s =>
    let d := (Z.of_nat (Ascii.nat_of_ascii a) - 48)%Z in
    if ((0 <=? d) && (d <=? 9))%Z then digits s (10 * acc + d)%Z else acc
  | EmptyString => acc
  end.

Definition parse_integer (s : string) : Z :=
  match s with
  | String "-"%char s => (- digits s 0)%Z
  | _ => digits s 0%Z
  end.

(** A third and a fifth order polynomial stand in for [cosf] and [sinf]. *)
Definition poly_cos (a : float) : float :=
  let a2 := F32.mul a a in
  F32.add (F32.sub F32.one (F32.mul a2 F32.half))
          (F32.div (F32.mul a2 a2) (F32.of_Z 24)).
Definition poly_sin (a : float) : float :=
  let a2 := F32.mul a a in
  let a3 := F32.mul a2 a in
  F32.add (F32.sub a (F32.div a3 (F32.of_Z 6)))
          (F32.div (F32.mul a3 a2) (F32.of_Z 120)).

(** The number of bytes of ["%f"]: the sign, the integral digits, the point
    and six decimals of the value rounded to six decimals (to nearest, ties
    to even); ["inf"] and ["nan"]. *)
Definition millionths (m : positive) (e : Z) : Z :=
  let num := (Z.pos m * 10 ^ 6)%Z in
  if (0 <=? e)%Z then (num * 2 ^ e)%Z
  else
    let den := (2 ^ (- e))%Z in
    let q := (num / den)%Z in
    let r := (num mod den)%Z in
    if (den <? 2 * r)%Z || ((den =? 2 * r)%Z && Z.odd q) then (q + 1)%Z else q.

Definition decimal_length (z : Z) : nat :=
  Decimal.nb_digits (N.to_uint (Z.to_N z)).

Definition f_length (a : float) : nat :=
  match a with
  | S754_zero s => (if s then 1 else 0) + 8
  | S754_finite s m e =>
    (if s then 1 else 0) + decimal_length (millionths m e / 10 ^ 6) + 7
  | S754_infinity s => (if s then 1 else 0) + 3
  | S754_nan => 3
  end.

Definition line_length (l : out_line) : nat :=
  match l with
  | Line_zu n => decimal_length n + 1
  | Line_f a => f_length a + 1
  | Line_ff a b => f_length a + 1 + f_length b + 1
  | Cut _ bytes => bytes
  end.

(** [rand] starts as glibc's does; arguments are read as integers;
    [malloc(0)] returns a block; [stdout] is a terminal. *)
Definition c : libc :=
  {| RAND_MAX := 2147483647;
     rand := fun n =>
       nth n [1804289383; 846930886; 1681692777; 1714636915; 1957747793;
              424238335; 719885386; 1649760492; 596516649; 1189641421;
              1025202362; 1350490027; 783368690; 1102520059; 2044897763;
              1967513926; 1365180540; 1540383426; 304089172; 1303455736]%Z
           (Z.of_nat n);
     cosf := poly_cos;
     sinf := poly_sin;
     strtof := fun s => F32.of_Z (parse_integer s);
     strtol := parse_integer;
     malloc_ok := fun bytes => (bytes <? 2 ^ 32)%Z;
     stdout_buffering := Line_buffered;
     printf_length := line_length |}.

(** The same with [stdout] redirected to a file, behind a buffer of 4096
    bytes. *)
Definition redirected : libc :=
  {| RAND_MAX := RAND_MAX c; rand := rand c; cosf := cosf c; sinf := sinf c;
     strtof := strtof c; strtol := strtol c; malloc_ok := malloc_ok c;
     stdout_buffering := Fully_buffered 4096;
     printf_length := printf_length c |}.

(** The same with a [malloc] that returns a null pointer for a request of
    no bytes, as the C standard allows. *)
Definition strict : libc :=
  {| RAND_MAX := RAND_MAX c; rand := rand c; cosf := cosf c; sinf := sinf c;
     strtof := strtof c; strtol := strtol c;
     malloc_ok := fun bytes => (0 <? bytes)%Z && malloc_ok c bytes;
     stdout_buffering := stdout_buffering c;
     printf_length := printf_length c |}.

Definition nowhere : body_t :=
  Body S754_nan S754_nan S754_nan S754_nan S754_nan S754_nan S754_nan.
Definition origin : body_t :=
  Body F32.zero F32.zero F32.zero F32.zero F32.zero F32.zero F32.zero.

Definition h : heap :=
  {| fresh_bodies := fun _ _ => nowhere;
     fresh_local_bodies := fun _ _ => nowhere;
     fresh_accelerations := fun _ => S754_nan |}.
Definition h' : heap :=
  {| fresh_bodies := fun _ _ => origin;
     fresh_local_bodies := fun _ _ => origin;
     fresh_accelerations := fun _ => F32.one |}.

Definition argv (time_period delta_time body_count mass softening : string)
  : list string :=
  ["nbody-mpi"; time_period; delta_time; body_count; mass; softening]%string.
End Demo.

(** ** The documented kernel, closed forms of the loops, and instances *)

Module Spec.
(** The kernel as the design document words it, for a source and a
    target body and the run's softening length. *)
Definition displacement (source target : body_t) : float * float :=
  (F32.sub (x target) (x source), F32.sub (y target) (y source)).

Definition norm_squared (d : float * float) : float :=
  F32.add (F32.mul (fst d) (fst d)) (F32.mul (snd d) (snd d)).

Definition distance_sq (softening_length : float) (d : float * float) : float :=
  F32.add (norm_squared d) (F32.mul softening_length softening_length).

Definition cube (a : float) : float := F32.mul (F32.mul a a) a.

Definition inverse_cubed (distance_sq : float) : float :=
  F32.div F32.one (F32.sqrt (cube distance_sq)).

Definition force (softening_length : float) (source target : body_t)
  : float * float :=
  let d := displacement source target in
  let k := F32.mul (mass target) (inverse_cubed (distance_sq softening_length d)) in
  (F32.mul (fst d) k, F32.mul (snd d) k).
End Spec.

(** The kernel reads the positions of both bodies and the mass of the
    second, nothing else. *)
Definition geometry (b : body_t) : float * float * float := (x b, y b, mass b).

(** The scale factor of the kernel for two bodies at one position. *)
Definition coincident_scale (softening_length : float) (target : body_t) : float :=
  F32.mul (mass target)
    (F32.div F32.one
       (F32.sqrt (Spec.cube (F32.mul softening_length softening_length)))).

(** The divisor of the kernel and the factor it multiplies the
    displacement by, for a source and a target body. *)
Definition kernel_divisor (softening_length : float) (source target : body_t)
  : float :=
  F32.sqrt
    (Spec.cube
       (Spec.distance_sq softening_length (Spec.displacement source target))).

Definition kernel_scale (softening_length : float) (source target : body_t)
  : float :=
  F32.mul (mass target)
    (F32.div F32.one (kernel_divisor softening_length source target)).

Module Examples.
(** Two bodies at the origin, told apart by their masses. *)
Definition at_origin (m : float) : body_t :=
  Body F32.zero F32.zero F32.zero F32.zero F32.zero F32.zero m.

(** A body at [(2^-30, 0)]. *)
Definition near_origin (m : float) : body_t :=
  Body (F32.dyadic 1 (-30)) F32.zero F32.zero F32.zero F32.zero F32.zero m.

(** A body at rest at [(1, 1)] under the acceleration [(2^-30, 2^-30)]. *)
Definition nudged : body_t :=
  Body F32.one F32.one (F32.dyadic 1 (-30)) (F32.dyadic 1 (-30))
       F32.zero F32.zero F32.one.

(** A body at rest at the origin under the acceleration [(1, 1)]. *)
Definition pushed : body_t :=
  Body F32.zero F32.zero F32.one F32.one F32.zero F32.zero F32.one.
End Examples.

Definition generated_body (c : libc) (cfg : config) (i : nat) : body_t :=
  fst (generate_body c (initial_body_mass cfg) (debug_acceleration_scale cfg)
         (body_count cfg) i (5 * i)).

(** The bodies of a run: they depend on the arguments and on the C library. *)
Definition generated (c : libc) (cfg : config) : list body_t :=
  generated_body c cfg <$> seq 0 (Z.to_nat (body_count cfg)).

Definition add_contribution (s2 : float) (first_body : body_t)
    (total : float * float) (second_body : body_t) : float * float :=
  let '(ax, ay) :=
    calculate_newton_gravity_acceleration s2 first_body second_body in
  (F32.add (fst total) ax, F32.add (snd total) ay).

(** The kernel's contributions of [others] on [first_body], added up from
    [0.0f] in the order of the list. *)
Definition net_acceleration (s2 : float) (first_body : body_t)
    (others : list body_t) : float * float :=
  fold_left (add_contribution s2 first_body) others (F32.zero, F32.zero).

(** A body with its acceleration replaced by the sum over the others. *)
Definition accelerated (s2 : float) (bs : list body_t) (i : nat)
    (b : body_t) : body_t :=
  let total := net_acceleration s2 b (delete i bs) in
  set_ay (set_ax b (fst total)) (snd total).

(** The slice [[lo, lo + len)] of a store. *)
Definition owned (bs : list body_t) (lo len : nat) : list body_t :=
  take len (drop lo bs).

Definition accelerated_slice (s2 : float) (bs : list body_t)
    (lo len : nat) : list body_t :=
  imap (fun j => accelerated s2 bs (lo + j)) (owned bs lo len).

(** The store of a worker that has computed [k] of its accelerations. *)
Definition partly_accelerated (s2 : float) (bs : list body_t)
    (lo k : nat) : list body_t :=
  (take lo bs ++ accelerated_slice s2 bs lo k) ++ drop (lo + k) bs.

Definition advance (cfg : config) (b : body_t) : body_t :=
  integrate b (delta_time cfg).

(** The store after a step, from the store before it: every body gets
    the sum over the others, taken on the store before the step, and is
    then advanced. *)
Definition next_store (cfg : config) (bs : list body_t) : list body_t :=
  imap (fun i b =>
          advance cfg (accelerated (simulation_softening_length_squared cfg) bs i b))
       bs.

(** What rank [rank] sends to the exchange. *)
Definition advanced_slice (cfg : config) (w_size : nat) (bs : list body_t)
    (rank : nat) : list body_t :=
  advance cfg
    <$> accelerated_slice (simulation_softening_length_squared cfg) bs
          (rank * Z.to_nat (bodies_per_process (body_count cfg) w_size))
          (Z.to_nat (bodies_per_process (body_count cfg) w_size)).

(** The accelerations of a list of bodies as the leader lays them out. *)
Definition acceleration_pairs (bs : list body_t) : list float :=
  concat ((fun b => [ax b; ay b]) <$> bs).

(** Every rank holds the store [bs] and a slice buffer of [len] bodies. *)
Definition synchronized (bs : list body_t) (len : nat) (procs : list process)
  : Prop :=
  Forall (fun p => bodies p = bs /\ length (local_bodies p) = len) procs.

(** The ranks after the exchange that ends a step begun on [bs]. *)
Definition after_exchange (cfg : config) (w_size : nat) (bs : list body_t)
  : list process :=
  (fun rank => Process (next_store cfg bs) (advanced_slice cfg w_size bs rank))
    <$> seq 0 w_size.

(** The store after [k] steps. *)
Definition store_after (cfg : config) (bs : list body_t) (k : nat)
  : list body_t :=
  Nat.iter k (next_store cfg) bs.

(** The bodies of the trace: the stores after steps 1 to [k], in order. *)
Definition traced (cfg : config) (bs : list body_t) (k : nat) : list body_t :=
  concat ((fun j => store_after cfg bs (S j)) <$> seq 0 k).

(** The conditions under which the job neither stops early nor leaves
    defined behaviour, with [iterations] steps, the integral part of the
    quotient of the time period by the time step: on the arguments, the
    worker count and the allocator only. *)
Record runs (c : libc) (w_size : nat) (argv : list string) (iterations : Z)
  : Prop := {
  enough_arguments : (6 <= argc argv)%Z;
  some_worker : 0 < w_size;
  even_split : divisible (body_count (parse_arguments c argv)) w_size = true;
  step_count :
    F32.trunc (F32.div (time_period (parse_arguments c argv))
                       (delta_time (parse_arguments c argv)))
    = Some iterations;
  step_count_range : (0 <= iterations < 2 ^ SIZE_WIDTH)%Z;
  store_fits :
    (sizeof_body_t * body_count (parse_arguments c argv) < 2 ^ SIZE_WIDTH)%Z;
  trace_fits :
    (sizeof_float * (iterations * body_count (parse_arguments c argv) * 2)
     < 2 ^ SIZE_WIDTH)%Z;
  index_fits :
    iterations = 0%Z \/ (body_count (parse_arguments c argv) <= INT_MAX)%Z;
  store_allocated :
    malloc_ok c (sizeof_body_t * body_count (parse_arguments c argv)) = true;
  slice_allocated :
    malloc_ok c (sizeof_body_t
                 * bodies_per_process (body_count (parse_arguments c argv)) w_size)
    = true;
  trace_allocated :
    malloc_ok c (sizeof_float
                 * (iterations * body_count (parse_arguments c argv) * 2))
    = true
}.

(** The lines the leader has given to [printf] when the steps begin. *)
Definition initial_output (c : libc) (cfg : config) : list out_line :=
  print_header cfg ++ concat (print_body <$> generated c cfg).

(** The memory of a rank at the broadcast, in a run that reaches it. *)
Definition at_broadcast (c : libc) (h : heap) (w_size : nat)
    (argv : list string) (iterations : Z) (rank : nat)
  : process * list float * list out_line :=
  let cfg := parse_arguments c argv in
  let n := body_count cfg in
  (Process
     (if decide (rank = 0) then generated c cfg
      else malloc (fresh_bodies h rank) (sizeof_body_t * n) sizeof_body_t)
     (malloc (fresh_local_bodies h rank)
        (sizeof_body_t * bodies_per_process n w_size) sizeof_body_t),
   if decide (rank = 0)
   then malloc (fresh_accelerations h) (sizeof_float * (iterations * n * 2))
          sizeof_float
   else [],
   if decide (rank = 0) then initial_output c cfg else []).

(** The output of a run of [iterations] steps: header, initial state, and
    one line for every body of every store after a step. *)
Definition trace_lines (c : libc) (cfg : config) (iterations : Z)
  : list out_line :=
  (fun b => Line_ff (ax b) (ay b))
    <$> traced cfg (generated c cfg) (Z.to_nat iterations).

Definition leader_output (c : libc) (cfg : config) (iterations : Z)
  : list out_line :=
  initial_output c cfg ++ trace_lines c cfg iterations.

Definition completed (c : libc) (argv : list string) (iterations : Z)
    (rank : nat) : result :=
  Result (if decide (rank = 0)
          then leader_output c (parse_arguments c argv) iterations else [])
         [] EXIT_SUCCESS.

(** The job after the broadcast and [k] steps, as [main] computes it. *)
Definition state_after (c : libc) (h : heap) (w_size : nat)
    (argv : list string) (k : nat) : option world :=
  rs ← mapM ready (start c h w_size argv <$> seq 0 w_size);
  run_steps (parse_arguments c argv) w_size k (fst ∘ fst <$> rs)
    (default [] (snd ∘ fst <$> rs !! 0)).

Module Demo_run.
(** Two workers, four bodies, two steps: [nbody-mpi 2 1 4 1 1]. *)
Definition arguments : list string := Demo.argv "2" "1" "4" "1" "1".

(** One worker, no step: [nbody-mpi 1 2 2 1 1]. *)
Definition short_arguments : list string := Demo.argv "1" "2" "2" "1" "1".

(** One worker, one body, a negative time period: [nbody-mpi -1 2 1 1 1]. *)
Definition backward_arguments : list string := Demo.argv "-1" "2" "1" "1" "1".

(** Two workers for three bodies: [nbody-mpi 2 1 3 1 1]. *)
Definition uneven_arguments : list string := Demo.argv "2" "1" "3" "1" "1".
End Demo_run.

(** The step as C3 words it: each owned body is advanced, where it stands
    in the store, as soon as its acceleration is stored, before the next
    owned body is looked at. *)
Definition interleaved_worker_step (cfg : config) (w_size : nat) (rank : nat)
    (p : process) : option process :=
  let per_process := bodies_per_process (body_count cfg) w_size in
  let start := slice_start rank per_process in
  '(bodies, local_bodies, _) ←
    for_loop (Z.to_nat (wrap (start + per_process) - start)) (Z.to_nat start)
      (fun i '(bodies, local_bodies, p) =>
         first_body ← bodies !! i;
         '(total_ax, total_ay) ←
           accumulate (simulation_softening_length_squared cfg) bodies
             (body_count cfg) i first_body;
         let first_body :=
           integrate (set_ay (set_ax first_body total_ax) total_ay)
                     (delta_time cfg) in
         bodies ← store bodies i first_body;
         local_bodies ← store local_bodies p first_body;
         Some (bodies, local_bodies, S p))
      (bodies p, local_bodies p, 0);
  Some (Process bodies local_bodies).

Module Pair.
(** Two bodies of mass 1 at rest, at [(0, 0)] and [(1, 0)]; softening
    length 1, time step 1; one worker. *)
Definition left_body : body_t :=
  Body F32.zero F32.zero F32.zero F32.zero F32.zero F32.zero F32.one.
Definition right_body : body_t :=
  Body F32.one F32.zero F32.zero F32.zero F32.zero F32.zero F32.one.
Definition cfg : config :=
  Config F32.one F32.one 2 F32.one F32.one Default_Debug_Acceleration_Scale.
Definition p : process :=
  Process [left_body; right_body] [Demo.nowhere; Demo.nowhere].
Definition accelerations (r : option process) : option (list (float * float)) :=
  (fun p => (fun b => (ax b, ay b)) <$> local_bodies p) <$> r.
End Pair.

Definition usage_error (argv : list string) (rank : nat) : result :=
  Result [] [Usage (arg argv 0)] EXIT_FAILURE.

Definition uneven_split (c : libc) (argv : list string) (rank : nat) : result :=
  Result (transmitted c
            (if decide (rank = 0)
             then initial_output c (parse_arguments c argv) else []))
         [Assertion_failed "body_count % w_size == 0"] SIGABRT.

(** The job when [malloc] refuses the trace buffer: the leader aborts, the
    other ranks wait for it at the broadcast. *)
Definition trace_refused (c : libc) (argv : list string) (rank : nat) : result :=
  if decide (rank = 0)
  then Result (transmitted c (initial_output c (parse_arguments c argv)))
              [Assertion_failed "accelerations != NULL"] SIGABRT
  else Result (transmitted c []) [] BLOCKED.

(** The header and the dump of the store [bs], as the output format lays
    them out: the body count, the time period and the time step on a line
    each, then four lines for every body, in the order of the store:
    position, acceleration, velocity, mass. *)
Definition shows_initial_state (cfg : config) (bs : list body_t)
    (out : list out_line) : Prop :=
  length out = 3 + 4 * length bs
  /\ out !! 0 = Some (Line_zu (body_count cfg))
  /\ out !! 1 = Some (Line_f (time_period cfg))
  /\ out !! 2 = Some (Line_f (delta_time cfg))
  /\ forall i b, bs !! i = Some b ->
       out !! (3 + 4 * i) = Some (Line_ff (x b) (y b))
       /\ out !! (3 + 4 * i + 1) = Some (Line_ff (ax b) (ay b))
       /\ out !! (3 + 4 * i + 2) = Some (Line_ff (vx b) (vy b))
       /\ out !! (3 + 4 * i + 3) = Some (Line_f (mass b)).

Module Massless.
(** [nbody-mpi 2 1 4 0 1] and [nbody-mpi 2 1 4 -1 1]. *)
Definition arguments : list string := Demo.argv "2" "1" "4" "0" "1".
Definition negative_arguments : list string := Demo.argv "2" "1" "4" "-1" "1".

(** Which masses are positive, rank by rank and body by body. *)
Definition positive_masses (s : option world) : option (list (list bool)) :=
  (fun s : world =>
     (fun p : process => (fun b => F32.positive (mass b)) <$> bodies p)
       <$> fst (fst s)) <$> s.
End Massless.

(** ** Further notions used in the statements *)

(** Opposite numbers: one the negation of the other, or both zero. *)
Definition opposite (a b : float) : Prop :=
  a = SFopp b \/ (F32.is_zero a = true /\ F32.is_zero b = true).

(** The acceleration a body stores. *)
Definition acceleration_of (b : body_t) : float * float := (ax b, ay b).

Module Tampered.
(** The pair with other accelerations and velocities in the store. *)
Definition p : process :=
  Process ((fun b => set_vx (set_ax b F32.one) F32.two) <$> bodies Pair.p)
          (local_bodies Pair.p).
End Tampered.

(** Arguments that differ in the time period at most. *)
Definition same_but_time_period (argv argv' : list string) : Prop :=
  argc argv = argc argv' /\ forall i, i <> 1 -> arg argv i = arg argv' i.

(** ** Facts of single precision arithmetic *)

Lemma add_zero_l (a : float) :
  F32.add F32.zero a = a \/ (a = S754_zero true /\ F32.add F32.zero a = F32.zero).
Proof. destruct a as [[]|[]| |]; cbn; auto. Qed.

Lemma add_zero_same_number (a : float) : F32.same_number (F32.add F32.zero a) a.
Proof.
  destruct (add_zero_l a) as [->|[-> ->]]; [by left|by right].
Qed.

Lemma sub_diag (a : float) :
  F32.is_finite a = true -> F32.sub a a = F32.zero.
Proof.
  destruct a as [[]|[]| |s m e]; cbn; try done.
  intros _. unfold F32.sub, SFsub. by rewrite Z.sub_diag.
Qed.

Lemma mul_zero_finite (a : float) :
  F32.is_finite a = true -> F32.is_zero (F32.mul F32.zero a) = true.
Proof. by destruct a as [[]|[]| |s m e]. Qed.

Lemma mul_zero_not_finite (a : float) :
  F32.is_finite a = false -> F32.mul F32.zero a = S754_nan.
Proof. by destruct a as [[]|[]| |s m e]. Qed.

Lemma add_zero_is_zero (a : float) :
  F32.is_zero a = true -> F32.add F32.zero a = F32.zero.
Proof. by destruct a as [[]|[]| |s m e]. Qed.

Lemma mul_self_not_negative_zero (a : float) : F32.mul a a <> S754_zero true.
Proof.
  destruct a as [[]|[]| |s m e]; cbn; try done.
  unfold F32.mul, SFmul, binary_round_aux. rewrite xorb_nilpotent.
  repeat case_match; done.
Qed.

Lemma floor_trunc (f : float) (k : Z) :
  F32.floor f = Some k -> (0 <= k)%Z -> F32.trunc f = Some k.
Proof.
  destruct f as [?|?| |[] m e]; cbn; try done.
  intros [= <-] Hk. exfalso.
  pose proof (Z.shiftl_nonneg (- Z.pos m) e). lia.
Qed.

(** The integral part of a value that is not negative is its floor; the
    integral part 0 of a negative value goes with the floor -1. *)
Lemma trunc_floor (f : float) (k : Z) :
  F32.trunc f = Some k -> (0 <= k)%Z ->
  F32.floor f = Some k \/ (k = 0%Z /\ F32.floor f = Some (-1)%Z).
Proof.
  destruct f as [?|?| |[] m e]; cbn; try done; [by left| |by left].
  intros [= <-] Hk. right.
  pose proof (Z.shiftl_nonneg (Z.pos m) e) as Hpos.
  assert (Z.shiftl (Z.pos m) e = 0%Z) as Hzero by lia.
  split; [lia|]. f_equal.
  destruct (Z.leb_spec 0 e) as [He|He].
  - rewrite Z.shiftl_mul_pow2 in Hzero by done.
    pose proof (Z.pow_pos_nonneg 2 e). lia.
  - rewrite Z.shiftl_div_pow2 in Hzero |- * by lia.
    pose proof (Z.pow_pos_nonneg 2 (- e)) as Hpow.
    apply Z.div_small_iff in Hzero as [Hzero|Hzero]; [|lia..].
    symmetry. apply (Z.div_unique _ _ _ (2 ^ (- e) - Z.pos m)); lia.
Qed.

Lemma to_size_t_trunc (f : float) (k : Z) :
  F32.trunc f = Some k -> (0 <= k < 2 ^ SIZE_WIDTH)%Z -> to_size_t f = Some k.
Proof.
  intros Hf [H0 H1]. unfold to_size_t. rewrite Hf. cbn.
  destruct (Z.leb_spec 0 k), (Z.ltb_spec k (2 ^ SIZE_WIDTH)); (done || lia).
Qed.

(** ** The force kernel *)

Lemma kernel_unfold (s2 : float) (a b : body_t) :
  calculate_newton_gravity_acceleration s2 a b =
  let d := Spec.displacement a b in
  let k := F32.mul (mass b)
             (Spec.inverse_cubed (F32.add (Spec.norm_squared d) s2)) in
  (F32.add F32.zero (F32.mul (fst d) k), F32.add F32.zero (F32.mul (snd d) k)).
Proof. reflexivity. Qed.

(** C1. For every pair of bodies and every softening length, the kernel
    run with the precomputed square of the softening length returns the
    acceleration of the documented formula: each component is the
    formula's value accumulated into [0.0f], hence the same number (and the
    same float, except that the formula's [-0] comes out as [+0]). *)
Theorem kernel_computes_force (softening_length : float) (source target : body_t) :
  let a := calculate_newton_gravity_acceleration
             (F32.mul softening_length softening_length) source target in
  let f := Spec.force softening_length source target in
  a = (F32.add F32.zero (fst f), F32.add F32.zero (snd f))
  /\ F32.same_number (fst a) (fst f)
  /\ F32.same_number (snd a) (snd f).
Proof.
  cbv zeta. rewrite kernel_unfold. cbv zeta.
  unfold Spec.force, Spec.distance_sq. cbn [fst snd].
  split; [reflexivity|]. split; apply add_zero_same_number.
Qed.

Lemma kernel_geometry (s2 : float) (a a' b b' : body_t) :
  geometry a = geometry a' -> geometry b = geometry b' ->
  calculate_newton_gravity_acceleration s2 a b =
  calculate_newton_gravity_acceleration s2 a' b'.
Proof.
  unfold geometry, calculate_newton_gravity_acceleration.
  intros [= -> -> _] [= -> -> ->]. reflexivity.
Qed.

(** For two bodies at the same finite position the kernel divides by
    [sqrt((softening_length^2)^3)]; its result is zero when the target's
    mass times that quotient is finite, and NaN when it is not. *)
Lemma kernel_at_same_position (softening_length : float) (a b : body_t) :
  x a = x b -> y a = y b ->
  F32.is_finite (x a) = true -> F32.is_finite (y a) = true ->
  calculate_newton_gravity_acceleration
    (F32.mul softening_length softening_length) a b =
  if F32.is_finite (coincident_scale softening_length b)
  then (F32.zero, F32.zero) else (S754_nan, S754_nan).
Proof.
  intros Hx Hy Fx Fy. rewrite kernel_unfold. cbv zeta.
  unfold Spec.displacement. rewrite <- Hx, <- Hy, !sub_diag by done.
  cbn [fst snd]. unfold Spec.norm_squared. cbn [fst snd].
  change (F32.add (F32.mul F32.zero F32.zero) (F32.mul F32.zero F32.zero))
    with F32.zero.
  assert (F32.add F32.zero (F32.mul softening_length softening_length)
          = F32.mul softening_length softening_length) as ->.
  { destruct (add_zero_l (F32.mul softening_length softening_length))
      as [?|[E _]]; [done|]. by apply mul_self_not_negative_zero in E. }
  fold (coincident_scale softening_length b).
  destruct (F32.is_finite (coincident_scale softening_length b)) eqn:E.
  - by rewrite add_zero_is_zero by by apply mul_zero_finite.
  - by rewrite mul_zero_not_finite.
Qed.

(** With no softening the division is by zero. *)
Lemma coincident_scale_unsoftened (b : body_t) :
  F32.is_finite (coincident_scale F32.zero b) = false.
Proof. unfold coincident_scale. by destruct (mass b) as [[]|[]| |[] m e]. Qed.

Lemma is_finite_add_zero (t : float) :
  F32.is_finite (F32.add F32.zero t) = F32.is_finite t.
Proof. by destruct t as [[]|[]| |[] m e]. Qed.

Lemma div_one_zero (z : float) :
  F32.is_zero z = true -> exists s, F32.div F32.one z = S754_infinity s.
Proof. destruct z as [s|?| |? ? ?]; try done. intros _. by exists s. Qed.

Lemma mul_infinity_not_finite (a : float) (s : bool) :
  F32.is_finite (F32.mul a (S754_infinity s)) = false.
Proof. by destruct a as [[]|[]| |[] m e]. Qed.

Lemma mul_not_finite (d k : float) :
  F32.is_finite k = false -> F32.is_finite (F32.mul d k) = false.
Proof.
  destruct k as [?|s| |? ? ?]; try done; intros _.
  - apply mul_infinity_not_finite.
  - by destruct d as [[]|[]| |[] m e].
Qed.

(** C8, as the code has it. For any two bodies and any softening length,
    each component of the kernel's result is finite exactly when the
    product of the displacement by
    [scale = target.mass * (1 / sqrt(distance_sq^3))] is finite. It never is
    when the kernel divides by zero, that is when [sqrt(distance_sq^3)] is
    zero: both components are then infinite or NaN. For two bodies at one
    and the same finite position the result is zero when [scale] is finite
    and NaN when it is not. *)
Theorem kernel_finite_exactly_when (softening_length : float) (a b : body_t) :
  let f := calculate_newton_gravity_acceleration
             (F32.mul softening_length softening_length) a b in
  let d := Spec.displacement a b in
  let scale := kernel_scale softening_length a b in
  F32.is_finite (fst f) = F32.is_finite (F32.mul (fst d) scale)
  /\ F32.is_finite (snd f) = F32.is_finite (F32.mul (snd d) scale)
  /\ (F32.is_zero (kernel_divisor softening_length a b) = true ->
      F32.is_finite scale = false
      /\ F32.is_finite (fst f) = false /\ F32.is_finite (snd f) = false)
  /\ (x a = x b -> y a = y b ->
      F32.is_finite (x a) = true -> F32.is_finite (y a) = true ->
      scale = coincident_scale softening_length b
      /\ f = if F32.is_finite scale
             then (F32.zero, F32.zero) else (S754_nan, S754_nan)).
Proof.
  cbv zeta. rewrite kernel_unfold. cbv zeta. cbn [fst snd].
  fold (Spec.distance_sq softening_length (Spec.displacement a b)).
  change (Spec.inverse_cubed
            (Spec.distance_sq softening_length (Spec.displacement a b)))
    with (F32.div F32.one (kernel_divisor softening_length a b)).
  fold (kernel_scale softening_length a b).
  rewrite !is_finite_add_zero.
  split; [done|]. split; [done|]. split.
  - intros Hzero.
    assert (F32.is_finite (kernel_scale softening_length a b) = false) as Hs.
    { unfold kernel_scale. destruct (div_one_zero _ Hzero) as [s ->].
      apply mul_infinity_not_finite. }
    split; [done|]. by rewrite !mul_not_finite.
  - intros Hx Hy Fx Fy.
    pose proof (kernel_at_same_position softening_length a b Hx Hy Fx Fy)
      as Hk.
    rewrite kernel_unfold in Hk. cbv zeta in Hk.
    assert (kernel_scale softening_length a b
            = coincident_scale softening_length b) as Hs.
    { unfold kernel_scale, kernel_divisor, coincident_scale.
      unfold Spec.distance_sq, Spec.displacement, Spec.norm_squared.
      cbn [fst snd]. rewrite <- Hx, <- Hy, !sub_diag by done.
      change (F32.add (F32.mul F32.zero F32.zero) (F32.mul F32.zero F32.zero))
        with F32.zero.
      destruct (add_zero_l (F32.mul softening_length softening_length))
        as [->|[E _]]; [done|]. by apply mul_self_not_negative_zero in E. }
    split; [done|]. rewrite <- Hs in Hk. exact Hk.
Qed.

Lemma kernel_finite_exactly_when_examples :
  (x (Examples.at_origin F32.one) = x (Examples.at_origin F32.two)
   /\ F32.is_finite (x (Examples.at_origin F32.one)) = true
   /\ calculate_newton_gravity_acceleration (F32.mul F32.one F32.one)
        (Examples.at_origin F32.one) (Examples.at_origin F32.two)
      = (F32.zero, F32.zero))
  /\ (F32.is_zero (kernel_divisor F32.zero (Examples.at_origin F32.one)
                     (Examples.near_origin F32.two)) = true
      /\ F32.is_finite
           (fst (calculate_newton_gravity_acceleration
                   (F32.mul F32.zero F32.zero)
                   (Examples.at_origin F32.one)
                   (Examples.near_origin F32.two))) = false
      /\ F32.is_finite
           (snd (calculate_newton_gravity_acceleration
                   (F32.mul F32.zero F32.zero)
                   (Examples.at_origin F32.one)
                   (Examples.near_origin F32.two))) = false).
Proof.
  split.
  - split; [reflexivity|]. split; [reflexivity|].
    exact (proj2 (proj2 (proj2 (proj2
             (kernel_finite_exactly_when F32.one (Examples.at_origin F32.one)
                (Examples.at_origin F32.two)))) eq_refl eq_refl eq_refl
             eq_refl)).
  - split; [vm_compute; reflexivity|].
    exact (proj2 (proj1 (proj2 (proj2
             (kernel_finite_exactly_when F32.zero (Examples.at_origin F32.one)
                (Examples.near_origin F32.two)))) eq_refl)).
Defined.

(** C8 fails as stated: with softening length 0, and with the positive
    softening length [2^-30] whose sixth power underflows, the kernel
    divides by zero for two bodies at one position and returns NaN. *)
Lemma kernel_not_finite :
  calculate_newton_gravity_acceleration (F32.mul F32.zero F32.zero)
    (Examples.at_origin F32.one) (Examples.at_origin F32.two)
  = (S754_nan, S754_nan)
  /\ F32.positive (F32.dyadic 1 (-30)) = true
  /\ F32.sqrt (Spec.cube (F32.mul (F32.dyadic 1 (-30)) (F32.dyadic 1 (-30))))
     = F32.zero
  /\ calculate_newton_gravity_acceleration
       (F32.mul (F32.dyadic 1 (-30)) (F32.dyadic 1 (-30)))
       (Examples.at_origin F32.one) (Examples.at_origin F32.two)
     = (S754_nan, S754_nan).
Proof. repeat split; vm_compute; reflexivity. Qed.

(** ** The integrator *)

Lemma integrate_unfold (body : body_t) (delta_time : float) :
  integrate body delta_time =
  let vx' := F32.add (vx body) (F32.mul (ax body) delta_time) in
  let vy' := F32.add (vy body) (F32.mul (ay body) delta_time) in
  Body (F32.add (x body) (F32.mul vx' delta_time))
       (F32.add (y body) (F32.mul vy' delta_time))
       (ax body) (ay body) vx' vy' (mass body).
Proof. reflexivity. Qed.

Lemma integrate_mass (body : body_t) (delta_time : float) :
  mass (integrate body delta_time) = mass body.
Proof. reflexivity. Qed.

(** C2, as the code has it. The integrator first adds
    [acceleration * delta_time] to the velocity, then adds the updated
    velocity times [delta_time] to the position; acceleration and mass are
    unchanged. For the body at rest at the origin with acceleration [(1, 1)]
    and [delta_time = 1] the new position differs from
    [old_position + old_velocity * delta_time]. *)
Theorem integrate_velocity_then_position :
  (forall (body : body_t) (delta_time : float),
     let body' := integrate body delta_time in
     vx body' = F32.add (vx body) (F32.mul (ax body) delta_time)
     /\ vy body' = F32.add (vy body) (F32.mul (ay body) delta_time)
     /\ x body' = F32.add (x body) (F32.mul (vx body') delta_time)
     /\ y body' = F32.add (y body) (F32.mul (vy body') delta_time)
     /\ ax body' = ax body /\ ay body' = ay body /\ mass body' = mass body)
  /\ x (integrate Examples.pushed F32.one)
     <> F32.add (x Examples.pushed) (F32.mul (vx Examples.pushed) F32.one)
  /\ y (integrate Examples.pushed F32.one)
     <> F32.add (y Examples.pushed) (F32.mul (vy Examples.pushed) F32.one).
Proof.
  split; [intros body delta_time body'; repeat split; reflexivity|].
  split; vm_compute; discriminate.
Qed.

(** C2 fails as stated: a body with acceleration [(2^-30, 2^-30)] at rest
    at [(1, 1)], advanced by [delta_time = 2^-7], ends at
    [old_position + old_velocity * delta_time]: the increment is below half
    a unit in the last place of the position. So does the body with
    acceleration [(1, 1)] advanced by [delta_time = 0]. *)
Lemma integrate_increment_absorbed :
  (F32.is_zero (ax Examples.nudged) = false
   /\ F32.is_zero (ay Examples.nudged) = false
   /\ F32.is_zero (F32.dyadic 1 (-7)) = false
   /\ x (integrate Examples.nudged (F32.dyadic 1 (-7)))
      = F32.add (x Examples.nudged)
          (F32.mul (vx Examples.nudged) (F32.dyadic 1 (-7)))
   /\ y (integrate Examples.nudged (F32.dyadic 1 (-7)))
      = F32.add (y Examples.nudged)
          (F32.mul (vy Examples.nudged) (F32.dyadic 1 (-7))))
  /\ (F32.is_zero (ax Examples.pushed) = false
      /\ F32.is_zero (ay Examples.pushed) = false
      /\ x (integrate Examples.pushed F32.zero)
         = F32.add (x Examples.pushed) (F32.mul (vx Examples.pushed) F32.zero)
      /\ y (integrate Examples.pushed F32.zero)
         = F32.add (y Examples.pushed) (F32.mul (vy Examples.pushed) F32.zero)).
Proof. repeat split; vm_compute; reflexivity. Qed.

(** ** Loops *)

Section Loops.
Context {T : Type}.
Implicit Types (body : nat -> T -> option T) (s : T).

(** The rule for a loop with invariant [P], indexed by the number of
    iterations made: the loop ends, in a state where [P count] holds. *)
Lemma for_loop_invariant (P : nat -> T -> Prop) count lo body s :
  P 0 s ->
  (forall k s, k < count -> P k s ->
     exists s', body (lo + k) s = Some s' /\ P (S k) s') ->
  exists s', for_loop count lo body s = Some s' /\ P count s'.
Proof.
  revert P lo s. induction count as [|count IH]; intros P lo s H0 Hstep.
  - by exists s.
  - destruct (Hstep 0 s) as (s1 & E1 & P1); [lia|done|].
    rewrite Nat.add_0_r in E1. cbn. rewrite E1. cbn.
    apply (IH (fun k => P (S k)) (S lo) s1 P1).
    intros k s2 Hk HP. destruct (Hstep (S k) s2) as (s3 & E3 & P3);
      [lia|done|].
    exists s3. split; [|done]. by replace (S lo + k) with (lo + S k) by lia.
Qed.

(** When the state after [k] iterations is known in closed form. *)
Lemma for_loop_closed (state : nat -> T) count lo body :
  (forall k, k < count -> body (lo + k) (state k) = Some (state (S k))) ->
  for_loop count lo body (state 0) = Some (state count).
Proof.
  intros H.
  destruct (for_loop_invariant (fun k s => s = state k) count lo body (state 0))
    as (s' & -> & ->); [done| |done].
  intros k s Hk ->. eauto.
Qed.
End Loops.

(** Writing the element after a prefix already written. *)
Lemma store_next {A} (pre buf : list A) (i : nat) (v : A) :
  length pre = i -> i < length buf ->
  store (pre ++ drop i buf) i v = Some ((pre ++ [v]) ++ drop (S i) buf).
Proof.
  intros <- Hlt. unfold store.
  rewrite decide_True by (rewrite length_app, length_drop; lia).
  f_equal. rewrite insert_app_r_alt, Nat.sub_diag by lia.
  destruct (lookup_lt_is_Some_2 buf (length pre) Hlt) as [b Hb].
  rewrite (drop_S _ _ _ Hb). cbn. by rewrite <- app_assoc.
Qed.

Lemma lookup_after_prefix {A} (pre buf : list A) (i : nat) :
  length pre = i -> (pre ++ drop i buf) !! i = buf !! i.
Proof.
  intros <-. rewrite lookup_app_r, lookup_drop by lia. f_equal. lia.
Qed.

(** ** The generator *)

Lemma length_generated c cfg : length (generated c cfg) = Z.to_nat (body_count cfg).
Proof. unfold generated. by rewrite length_fmap, length_seq. Qed.

Lemma generate_debug_data_closed c cfg (buf : list body_t) :
  Z.to_nat (body_count cfg) <= length buf ->
  generate_debug_data c (initial_body_mass cfg) (debug_acceleration_scale cfg)
    buf (body_count cfg)
  = Some (generated c cfg ++ drop (Z.to_nat (body_count cfg)) buf).
Proof.
  intros Hlen. unfold generate_debug_data, generated.
  set (state k := ((generated_body c cfg <$> seq 0 k) ++ drop k buf, 5 * k)).
  change (buf, 0) with (state 0).
  rewrite (for_loop_closed state); [done|].
  intros k Hk. unfold state. cbn [Nat.add].
  destruct (generate_body _ _ _ _ k (5 * k)) as [body calls] eqn:E.
  assert (calls = 5 * S k) as -> by (apply (f_equal snd) in E; cbn in E; lia).
  assert (body = generated_body c cfg k) as ->
    by (unfold generated_body; by rewrite E).
  rewrite store_next by (rewrite ?length_fmap, ?length_seq; lia).
  cbn -[generated_body Nat.mul seq].
  by rewrite seq_S, fmap_app.
Qed.

Lemma print_bodies_closed (bs : list body_t) (n : Z) (out : list out_line) :
  Z.to_nat n <= length bs ->
  print_bodies bs n out
  = Some (out ++ concat (print_body <$> take (Z.to_nat n) bs)).
Proof.
  intros Hlen. unfold print_bodies.
  set (state k := out ++ concat (print_body <$> take k bs)).
  replace out with (state 0) at 1 by (unfold state; cbn; by rewrite app_nil_r).
  apply (for_loop_closed state). intros k Hk. cbn [Nat.add].
  destruct (lookup_lt_is_Some_2 bs k) as [b Hb]; [lia|].
  rewrite Hb. cbn -[print_body]. unfold state.
  rewrite (take_S_r _ _ _ Hb), fmap_app, concat_app. cbn -[print_body].
  by rewrite app_nil_r, app_assoc.
Qed.

(** ** The sum over the other bodies *)

Lemma accumulate_from (s2 : float) (bs : list body_t) (n : Z) (i : nat)
    (first_body : body_t) (l pre : list body_t) (j0 : nat)
    (total : float * float) :
  bs = pre ++ l -> length pre = j0 ->
  for_loop (length l) j0
    (fun j '(total_ax, total_ay) =>
       second_body ← bs !! j;
       if decide (i = j) then Some (total_ax, total_ay)
       else
         let '(ax, ay) :=
           calculate_newton_gravity_acceleration s2 first_body second_body in
         Some (F32.add total_ax ax, F32.add total_ay ay))
    total
  = Some (fold_left (add_contribution s2 first_body)
            (if decide (j0 <= i) then delete (i - j0) l else l) total).
Proof.
  revert pre j0 total. induction l as [|b l IH]; intros pre j0 total -> Hpre.
  - cbn. by destruct (decide _), (i - j0).
  - cbn [length for_loop]. destruct total as [tx ty].
    rewrite list_lookup_middle by done. cbn [mbind option_bind].
    specialize (IH (pre ++ [b]) (S j0)).
    rewrite <- app_assoc in IH. cbn [app] in IH.
    destruct (decide (i = j0)) as [->|Hne].
    + cbn [mbind option_bind]. rewrite IH by (try done; rewrite length_app; cbn; lia).
      rewrite decide_False, decide_True, Nat.sub_diag by lia. done.
    + destruct (calculate_newton_gravity_acceleration s2 first_body b)
        as [a1 a2] eqn:E.
      assert (add_contribution s2 first_body (tx, ty) b
              = (F32.add tx a1, F32.add ty a2)) as Hc
        by (unfold add_contribution; by rewrite E).
      cbn [mbind option_bind]. rewrite IH by (try done; rewrite length_app; cbn; lia).
      f_equal. destruct (decide (j0 <= i)).
      * rewrite decide_True by lia.
        replace (i - j0) with (S (i - S j0)) by lia.
        cbn [delete list_delete fold_left]. by rewrite Hc.
      * rewrite decide_False by lia. cbn [fold_left]. by rewrite Hc.
Qed.

Lemma accumulate_closed (s2 : float) (bs : list body_t) (n : Z) (i : nat)
    (first_body : body_t) :
  Z.to_nat n = length bs ->
  accumulate s2 bs n i first_body
  = Some (net_acceleration s2 first_body (delete i bs)).
Proof.
  intros Hn. unfold accumulate. rewrite Hn.
  rewrite (accumulate_from s2 bs n i first_body bs [] 0) by done.
  by rewrite decide_True, Nat.sub_0_r by lia.
Qed.

Lemma add_contribution_geometry (s2 : float) (a a' b b' : body_t) total :
  geometry a = geometry a' -> geometry b = geometry b' ->
  add_contribution s2 a total b = add_contribution s2 a' total b'.
Proof.
  intros Ha Hb. unfold add_contribution.
  by rewrite (kernel_geometry s2 a a' b b').
Qed.

Lemma net_acceleration_geometry (s2 : float) (a a' : body_t)
    (l l' : list body_t) :
  geometry a = geometry a' -> geometry <$> l = geometry <$> l' ->
  net_acceleration s2 a l = net_acceleration s2 a' l'.
Proof.
  intros Ha. unfold net_acceleration. generalize (F32.zero, F32.zero).
  revert l'. induction l as [|b l IH]; intros [|b' l'] total; try done.
  rewrite !fmap_cons. intros H.
  assert (geometry b = geometry b') as Hb by congruence.
  assert (geometry <$> l = geometry <$> l') as Hl by congruence.
  cbn [fold_left].
  rewrite (add_contribution_geometry s2 a a' b b') by done. by apply IH.
Qed.

(** ** A worker's step in closed form *)

Lemma accelerated_geometry s2 bs i b :
  geometry (accelerated s2 bs i b) = geometry b.
Proof. reflexivity. Qed.

Lemma length_owned bs lo len :
  lo + len <= length bs -> length (owned bs lo len) = len.
Proof. intros. unfold owned. rewrite length_take, length_drop. lia. Qed.

Lemma length_accelerated_slice s2 bs lo len :
  lo + len <= length bs -> length (accelerated_slice s2 bs lo len) = len.
Proof. intros. unfold accelerated_slice. by rewrite length_imap, length_owned. Qed.

Lemma owned_S bs lo k b :
  bs !! (lo + k) = Some b -> owned bs lo (S k) = owned bs lo k ++ [b].
Proof. intros H. unfold owned. apply take_S_r. by rewrite lookup_drop. Qed.

Lemma accelerated_slice_S s2 bs lo k b :
  bs !! (lo + k) = Some b ->
  accelerated_slice s2 bs lo (S k)
  = accelerated_slice s2 bs lo k ++ [accelerated s2 bs (lo + k) b].
Proof.
  intros H. unfold accelerated_slice.
  rewrite (owned_S _ _ _ _ H), imap_app. cbn.
  rewrite length_owned, Nat.add_0_r; [done|].
  apply lookup_lt_Some in H. lia.
Qed.

Lemma geometry_accelerated_slice s2 bs lo len :
  geometry <$> accelerated_slice s2 bs lo len
  = geometry <$> owned bs lo len.
Proof.
  unfold accelerated_slice. rewrite fmap_imap.
  rewrite <- (imap_const geometry). by apply imap_ext.
Qed.

Lemma geometry_partly_accelerated s2 bs lo k :
  geometry <$> partly_accelerated s2 bs lo k = geometry <$> bs.
Proof.
  unfold partly_accelerated.
  rewrite !fmap_app, geometry_accelerated_slice. unfold owned.
  rewrite <- !fmap_app, <- app_assoc, <- drop_drop, take_drop.
  by rewrite take_drop.
Qed.

Lemma length_partly_accelerated s2 bs lo k :
  length (partly_accelerated s2 bs lo k) = length bs.
Proof.
  rewrite <- (length_fmap geometry), geometry_partly_accelerated.
  apply length_fmap.
Qed.

Lemma partly_accelerated_0 s2 bs lo : partly_accelerated s2 bs lo 0 = bs.
Proof.
  unfold partly_accelerated, accelerated_slice, owned. cbn.
  by rewrite app_nil_r, Nat.add_0_r, take_drop.
Qed.

Lemma lookup_partly_accelerated s2 bs lo k :
  lo + k <= length bs ->
  partly_accelerated s2 bs lo k !! (lo + k) = bs !! (lo + k).
Proof.
  intros. unfold partly_accelerated. apply lookup_after_prefix.
  rewrite length_app, length_take, length_accelerated_slice; lia.
Qed.

Lemma store_partly_accelerated s2 bs lo k b :
  bs !! (lo + k) = Some b ->
  store (partly_accelerated s2 bs lo k) (lo + k) (accelerated s2 bs (lo + k) b)
  = Some (partly_accelerated s2 bs lo (S k)).
Proof.
  intros Hb. pose proof (lookup_lt_Some _ _ _ Hb). unfold partly_accelerated.
  rewrite store_next
    by (rewrite ?length_app, ?length_take, ?length_accelerated_slice; lia).
  rewrite (accelerated_slice_S _ _ _ _ _ Hb), Nat.add_succ_r.
  by rewrite <- !app_assoc.
Qed.

Lemma wrap_small (z : Z) : (0 <= z < 2 ^ SIZE_WIDTH)%Z -> wrap z = z.
Proof. apply Z.mod_small. Qed.

Lemma compute_accelerations_closed (s2 : float) (n lo len : Z) (p : process) :
  Z.to_nat n = length (bodies p) ->
  (0 <= lo)%Z -> (0 <= len)%Z -> (lo + len <= n)%Z -> (n < 2 ^ SIZE_WIDTH)%Z ->
  Z.to_nat len <= length (local_bodies p) ->
  compute_accelerations s2 n lo len p
  = Some (Process
            (partly_accelerated s2 (bodies p) (Z.to_nat lo) (Z.to_nat len))
            (accelerated_slice s2 (bodies p) (Z.to_nat lo) (Z.to_nat len)
             ++ drop (Z.to_nat len) (local_bodies p))).
Proof.
  destruct p as [bs loc]. cbn [bodies local_bodies].
  intros Hn Hlo Hlen Hhi Hmax Hloc. unfold compute_accelerations.
  cbn [bodies local_bodies].
  rewrite wrap_small by lia. replace (lo + len - lo)%Z with len by lia.
  set (lo' := Z.to_nat lo). set (len' := Z.to_nat len).
  assert (lo' + len' <= length bs) as Hin by lia.
  set (state k := (partly_accelerated s2 bs lo' k,
                   accelerated_slice s2 bs lo' k ++ drop k loc, k)).
  replace (bs, loc, 0) with (state 0)
    by (unfold state; by rewrite partly_accelerated_0).
  rewrite (for_loop_closed state); [done|].
  intros k Hk. unfold state. cbv beta iota.
  destruct (lookup_lt_is_Some_2 bs (lo' + k)) as [b Hb]; [lia|].
  rewrite lookup_partly_accelerated, Hb by lia.
  cbn [mbind option_bind].
  rewrite accumulate_closed by (by rewrite length_partly_accelerated).
  rewrite (net_acceleration_geometry s2 b b _ (delete (lo' + k) bs))
    by (by rewrite ?list_fmap_delete, ?geometry_partly_accelerated).
  destruct (net_acceleration s2 b (delete (lo' + k) bs)) as [tx ty] eqn:E.
  cbn [mbind option_bind].
  assert (set_ay (set_ax b tx) ty = accelerated s2 bs (lo' + k) b) as ->
    by (unfold accelerated; by rewrite E).
  rewrite store_partly_accelerated by done.
  cbn [mbind option_bind].
  rewrite store_next by (rewrite ?length_accelerated_slice; lia).
  cbn [mbind option_bind].
  by rewrite (accelerated_slice_S _ _ _ _ _ Hb).
Qed.

Lemma integrate_local_closed (dt : float) (len : Z) (p : process) :
  Z.to_nat len <= length (local_bodies p) ->
  integrate_local dt len p
  = Some (Process (bodies p)
            (((fun b => integrate b dt) <$> take (Z.to_nat len) (local_bodies p))
             ++ drop (Z.to_nat len) (local_bodies p))).
Proof.
  destruct p as [bs loc]. cbn [bodies local_bodies]. intros Hloc.
  unfold integrate_local. cbn [bodies local_bodies].
  set (state k := ((fun b => integrate b dt) <$> take k loc) ++ drop k loc).
  change loc with (state 0) at 1.
  rewrite (for_loop_closed state); [done|].
  intros k Hk. unfold state. cbn [Nat.add].
  destruct (lookup_lt_is_Some_2 loc k) as [b Hb]; [lia|].
  rewrite lookup_after_prefix, Hb by (rewrite length_fmap, length_take; lia).
  cbn [mbind option_bind].
  rewrite store_next by (rewrite ?length_fmap, ?length_take; lia).
  by rewrite (take_S_r _ _ _ Hb), fmap_app.
Qed.

(** ** The partitioner *)

Section Partition.
Variables (n : Z) (w_size : nat).
Hypothesis n_range : (0 <= n < 2 ^ SIZE_WIDTH)%Z.
Hypothesis workers : 0 < w_size.

Let len : Z := bodies_per_process n w_size.

Lemma bodies_per_process_nonneg : (0 <= len)%Z.
Proof. apply Z.div_pos; lia. Qed.

Lemma slices_below (rank : nat) :
  rank < w_size -> (Z.of_nat rank * len + len <= n)%Z.
Proof.
  intros Hr. pose proof bodies_per_process_nonneg.
  assert (Z.of_nat w_size * len <= n)%Z
    by (apply Z.mul_div_le; lia).
  nia.
Qed.

Lemma slice_start_exact (rank : nat) :
  rank < w_size -> slice_start rank len = (Z.of_nat rank * len)%Z.
Proof.
  intros Hr. pose proof (slices_below rank Hr).
  pose proof bodies_per_process_nonneg.
  apply wrap_small. nia.
Qed.

Hypothesis even : divisible n w_size = true.

Lemma slices_total : (Z.of_nat w_size * len = n)%Z.
Proof.
  unfold divisible in even. apply Z.eqb_eq in even.
  symmetry. apply Z_div_exact_full_2; [lia|done].
Qed.

(** Every index of the store lies in the slice of exactly one rank. *)
Lemma slices_partition (i : Z) :
  (0 <= i < n)%Z ->
  exists rank, rank < w_size
    /\ (slice_start rank len <= i < slice_start rank len + len)%Z
    /\ forall rank', rank' < w_size ->
         (slice_start rank' len <= i < slice_start rank' len + len)%Z ->
         rank' = rank.
Proof.
  intros Hi. pose proof slices_total as Htot.
  pose proof bodies_per_process_nonneg as Hlen.
  assert (0 < len)%Z as Hpos by nia.
  exists (Z.to_nat (i / len)).
  assert (0 <= i / len)%Z by (apply Z.div_pos; lia).
  assert (i / len < Z.of_nat w_size)%Z
    by (apply Z.div_lt_upper_bound; lia).
  pose proof (Z.mul_div_le i len Hpos).
  pose proof (Z.mul_succ_div_gt i len Hpos).
  split; [lia|]. rewrite slice_start_exact by lia. split; [lia|].
  intros rank' Hr'. rewrite slice_start_exact by lia. intros Hin.
  assert (Z.of_nat rank' = i / len)%Z; [|lia].
  apply (Z.div_unique_pos i len _ (i - Z.of_nat rank' * len)); lia.
Qed.
End Partition.

(** ** A step of the whole job in closed form *)

Lemma each_rank_closed {A B} (f : nat -> A -> option B) (g : nat -> A -> B)
    (r0 : nat) (l : list A) :
  (forall i a, l !! i = Some a -> f (r0 + i) a = Some (g (r0 + i) a)) ->
  each_rank f r0 l = Some (imap (fun i => g (r0 + i)) l).
Proof.
  revert r0. induction l as [|a l IH]; intros r0 H; [done|].
  cbn [each_rank]. pose proof (H 0 a eq_refl) as H0.
  rewrite Nat.add_0_r in H0. rewrite H0. cbn [mbind option_bind].
  rewrite (IH (S r0)).
  - cbn [mbind option_bind]. rewrite imap_cons, Nat.add_0_r. do 2 f_equal.
    apply imap_ext. intros. cbn. f_equal. lia.
  - intros i b Hi. replace (S r0 + i) with (r0 + S i) by lia. by apply H.
Qed.

Section Step.
Variables (cfg : config) (w_size : nat).

Let n : Z := body_count cfg.
Let s2 : float := simulation_softening_length_squared cfg.
Let len : nat := Z.to_nat (bodies_per_process n w_size).

Hypothesis n_range : (0 <= n < 2 ^ SIZE_WIDTH)%Z.
Hypothesis workers : 0 < w_size.
Hypothesis even : divisible n w_size = true.

Lemma store_size : Z.to_nat n = w_size * len.
Proof.
  pose proof (slices_total n w_size workers even) as H.
  pose proof (bodies_per_process_nonneg n w_size n_range workers).
  unfold len. rewrite <- H at 1. by rewrite Z2Nat.inj_mul, Nat2Z.id by lia.
Qed.

Lemma slice_start_nat (rank : nat) :
  rank < w_size ->
  Z.to_nat (slice_start rank (bodies_per_process n w_size)) = rank * len.
Proof.
  intros Hr. rewrite (slice_start_exact n w_size n_range workers rank Hr).
  pose proof (bodies_per_process_nonneg n w_size n_range workers).
  unfold len. by rewrite Z2Nat.inj_mul, Nat2Z.id by lia.
Qed.

Lemma slice_in_store (rank : nat) :
  rank < w_size -> rank * len + len <= Z.to_nat n.
Proof. intros. rewrite store_size. nia. Qed.

Lemma worker_step_closed (rank : nat) (p : process) :
  rank < w_size ->
  length (bodies p) = Z.to_nat n ->
  length (local_bodies p) = len ->
  worker_step cfg w_size rank p
  = Some (Process (partly_accelerated s2 (bodies p) (rank * len) len)
                  (advanced_slice cfg w_size (bodies p) rank)).
Proof.
  intros Hr Hbs Hloc. unfold worker_step. fold n.
  pose proof (slices_below n w_size n_range workers rank Hr).
  pose proof (bodies_per_process_nonneg n w_size n_range workers).
  pose proof (slice_in_store rank Hr).
  pose proof (slice_start_nat rank Hr) as Hnat.
  rewrite (slice_start_exact n w_size n_range workers rank Hr) in *.
  rewrite compute_accelerations_closed by (fold len; lia).
  rewrite Hnat. fold len s2. cbn [mbind option_bind].
  rewrite (drop_ge (local_bodies p)), app_nil_r by lia.
  rewrite integrate_local_closed; cbn [bodies local_bodies]; fold len;
    [|rewrite length_accelerated_slice; lia].
  rewrite take_ge, drop_ge, app_nil_r
    by (rewrite length_accelerated_slice; lia).
  done.
Qed.

(** The slices the ranks send, in rank order, make up the next store. *)
Lemma advanced_slices_from (bs : list body_t) (k lo : nat) :
  lo + k * len <= length bs ->
  concat ((fun r => advance cfg <$> accelerated_slice s2 bs (lo + r * len) len)
            <$> seq 0 k)
  = imap (fun j b => advance cfg (accelerated s2 bs (lo + j) b))
         (owned bs lo (k * len)).
Proof.
  revert lo. induction k as [|k IH]; intros lo Hlen; [done|].
  cbn [seq fmap list_fmap concat]. rewrite <- fmap_S_seq.
  rewrite <- list_fmap_compose.
  rewrite (list_fmap_ext _
             (fun r => advance cfg <$> accelerated_slice s2 bs (lo + len + r * len) len))
    by (intros; cbn; do 2 f_equal; lia).
  rewrite IH by lia.
  replace (S k * len) with (len + k * len) by lia.
  unfold owned at 2. rewrite <- take_take_drop, drop_drop.
  fold (owned bs lo len). fold (owned bs (lo + len) (k * len)).
  rewrite imap_app, length_owned by lia.
  rewrite Nat.mul_0_l, Nat.add_0_r. f_equal.
  - unfold accelerated_slice. by rewrite fmap_imap.
  - apply imap_ext. intros. cbn. do 2 f_equal. lia.
Qed.

Lemma advanced_slices (bs : list body_t) :
  length bs = Z.to_nat n ->
  concat (advanced_slice cfg w_size bs <$> seq 0 w_size) = next_store cfg bs.
Proof.
  intros Hbs. rewrite store_size in Hbs.
  pose proof (advanced_slices_from bs w_size 0) as H.
  unfold owned in H. rewrite drop_0, take_ge in H by lia.
  unfold advanced_slice, next_store. fold n len s2. cbn [Nat.add] in H.
  by rewrite <- H by lia.
Qed.

Lemma length_advanced_slice (bs : list body_t) (rank : nat) :
  rank < w_size -> length bs = Z.to_nat n ->
  length (advanced_slice cfg w_size bs rank) = len.
Proof.
  intros Hr Hbs. pose proof (slice_in_store rank Hr).
  unfold advanced_slice. fold n len.
  rewrite length_fmap, length_accelerated_slice; lia.
Qed.

Lemma length_next_store (bs : list body_t) :
  length (next_store cfg bs) = length bs.
Proof. apply length_imap. Qed.
End Step.

(** ** The trace buffer *)

Lemma acceleration_pairs_app (l k : list body_t) :
  acceleration_pairs (l ++ k) = acceleration_pairs l ++ acceleration_pairs k.
Proof. unfold acceleration_pairs. by rewrite fmap_app, concat_app. Qed.

Lemma length_acceleration_pairs (l : list body_t) :
  length (acceleration_pairs l) = 2 * length l.
Proof.
  induction l as [|b l IH]; [done|].
  change (acceleration_pairs (b :: l)) with (ax b :: ay b :: acceleration_pairs l).
  cbn [length]. lia.
Qed.

Lemma lookup_acceleration_pairs (l : list body_t) (k : nat) (b : body_t) :
  l !! k = Some b ->
  acceleration_pairs l !! (2 * k) = Some (ax b)
  /\ acceleration_pairs l !! (2 * k + 1) = Some (ay b).
Proof.
  revert k. induction l as [|a l IH]; intros [|k] H; try done.
  - by injection H as ->.
  - replace (2 * S k) with (S (S (2 * k))) by lia.
    change (acceleration_pairs (a :: l)) with (ax a :: ay a :: acceleration_pairs l).
    cbn [Nat.add lookup list_lookup]. by apply IH.
Qed.

Lemma record_accelerations_closed (n : Z) (bs : list body_t)
    (acc : list float) (next : nat) :
  (n <= INT_MAX)%Z ->
  Z.to_nat n <= length bs ->
  next + 2 * Z.to_nat n <= length acc ->
  record_accelerations n bs acc next
  = Some ((take next acc ++ acceleration_pairs (take (Z.to_nat n) bs))
          ++ drop (next + 2 * Z.to_nat n) acc,
          next + 2 * Z.to_nat n).
Proof.
  intros Hint Hbs Hacc. unfold record_accelerations.
  destruct (Z.ltb_spec INT_MAX n) as [?|_]; [lia|].
  set (state k := ((take next acc ++ acceleration_pairs (take k bs))
                   ++ drop (next + 2 * k) acc, next + 2 * k)).
  replace (acc, next) with (state 0).
  2:{ unfold state. cbn. by rewrite app_nil_r, !Nat.add_0_r, take_drop. }
  rewrite (for_loop_closed state); [done|].
  intros k Hk. unfold state. cbv beta iota. cbn [Nat.add].
  destruct (lookup_lt_is_Some_2 bs k) as [b Hb]; [lia|].
  rewrite Hb. cbn [mbind option_bind].
  assert (length (take next acc ++ acceleration_pairs (take k bs))
          = next + 2 * k) as Hpre.
  { rewrite length_app, length_take, length_acceleration_pairs, length_take. lia. }
  rewrite store_next by (done || lia). cbn [mbind option_bind].
  rewrite store_next by (try rewrite length_app, Hpre; cbn [length]; lia).
  cbn [mbind option_bind].
  rewrite (take_S_r _ _ _ Hb), acceleration_pairs_app.
  replace (next + 2 * S k) with (S (S (next + 2 * k))) by lia.
  change (acceleration_pairs [b]) with [ax b; ay b].
  by rewrite <- !app_assoc.
Qed.

Lemma print_accelerations_closed (trace : list body_t) (entries : Z)
    (out : list out_line) :
  entries = Z.of_nat (2 * length trace) ->
  print_accelerations (acceleration_pairs trace) entries out
  = Some (out ++ ((fun b => Line_ff (ax b) (ay b)) <$> trace)).
Proof.
  intros ->. unfold print_accelerations.
  replace (Z.to_nat ((Z.of_nat (2 * length trace) + 1) / 2)) with (length trace).
  2:{ rewrite Nat2Z.inj_mul.
      replace (Z.of_nat 2 * Z.of_nat (length trace) + 1)%Z
        with (1 + Z.of_nat (length trace) * 2)%Z by lia.
      rewrite Z.div_add by lia. change (1 / 2)%Z with 0%Z. lia. }
  set (state k := out ++ ((fun b => Line_ff (ax b) (ay b)) <$> take k trace)).
  replace out with (state 0) at 1 by (unfold state; cbn; by rewrite app_nil_r).
  replace (out ++ _) with (state (length trace))
    by (unfold state; by rewrite firstn_all).
  apply (for_loop_closed state). intros k Hk. cbn [Nat.add].
  destruct (lookup_lt_is_Some_2 trace k) as [b Hb]; [lia|].
  destruct (lookup_acceleration_pairs _ _ _ Hb) as [-> ->].
  cbn [mbind option_bind]. unfold state.
  by rewrite (take_S_r _ _ _ Hb), fmap_app, app_assoc.
Qed.

(** ** The collectives, for buffers of the expected sizes *)

Lemma MPI_Bcast_closed {A} (root_buf buf : list A) (count : nat) :
  length root_buf = count -> length buf = count ->
  MPI_Bcast root_buf count buf = Some root_buf.
Proof.
  intros H1 H2. unfold MPI_Bcast. rewrite decide_True by lia.
  by rewrite take_ge, drop_ge, app_nil_r by lia.
Qed.

Lemma MPI_Allgather_closed {A} (sendbufs : list (list A)) (count : nat)
    (recvbuf : list A) :
  Forall (fun s => length s = count) sendbufs ->
  length recvbuf = length sendbufs * count ->
  MPI_Allgather sendbufs count recvbuf = Some (concat sendbufs).
Proof.
  intros Hs Hr. unfold MPI_Allgather.
  assert (forallb (fun s => count <=? length s) sendbufs = true) as ->.
  { apply forallb_forall. intros s Hin%list_elem_of_In.
    rewrite Forall_forall in Hs. apply Nat.leb_le. by rewrite (Hs s Hin). }
  rewrite Hr, Nat.leb_refl. cbn [andb].
  rewrite drop_ge, app_nil_r by lia. do 2 f_equal.
  rewrite <- (list_fmap_id sendbufs) at 2.
  apply Forall_fmap_ext_1. eapply Forall_impl; [exact Hs|].
  intros s Hlen. cbv beta in Hlen. unfold id. apply take_ge. lia.
Qed.

(** ** The loop over the steps *)

Section Job.
Variables (cfg : config) (w_size : nat).

Let n : Z := body_count cfg.
Let s2 : float := simulation_softening_length_squared cfg.
Let len : nat := Z.to_nat (bodies_per_process n w_size).

Hypothesis n_range : (0 <= n < 2 ^ SIZE_WIDTH)%Z.
Hypothesis workers : 0 < w_size.
Hypothesis even : divisible n w_size = true.

Lemma length_store_after bs k : length (store_after cfg bs k) = length bs.
Proof.
  induction k as [|k IH]; [done|]. cbn. by rewrite length_next_store.
Qed.

Lemma traced_S bs k : traced cfg bs (S k) = traced cfg bs k ++ store_after cfg bs (S k).
Proof.
  unfold traced. rewrite seq_S, fmap_app, concat_app. cbn [Nat.add fmap list_fmap concat].
  by rewrite app_nil_r.
Qed.

Lemma length_traced bs k : length (traced cfg bs k) = k * length bs.
Proof using Type.
  clear. induction k as [|k IH]; [done|].
  rewrite traced_S, length_app, IH, length_store_after. lia.
Qed.

Lemma synchronized_after_exchange bs :
  length bs = Z.to_nat n ->
  length (after_exchange cfg w_size bs) = w_size
  /\ synchronized (next_store cfg bs) len (after_exchange cfg w_size bs).
Proof.
  intros Hbs. unfold after_exchange.
  split; [by rewrite length_fmap, length_seq|].
  apply Forall_fmap, Forall_seq. intros rank Hr. cbn. split; [done|].
  apply (length_advanced_slice cfg w_size n_range workers even); [lia|done].
Qed.

Lemma step_closed procs bs acc next :
  length procs = w_size -> synchronized bs len procs ->
  length bs = Z.to_nat n -> (n <= INT_MAX)%Z ->
  next + 2 * Z.to_nat n <= length acc ->
  step cfg w_size (procs, acc, next)
  = Some (after_exchange cfg w_size bs,
          (take next acc ++ acceleration_pairs (next_store cfg bs))
          ++ drop (next + 2 * Z.to_nat n) acc,
          next + 2 * Z.to_nat n).
Proof.
  intros Hw Hsync Hbs Hint Hacc. unfold step. fold n len.
  set (computed rank :=
         Process (partly_accelerated s2 bs (rank * len) len)
                 (advanced_slice cfg w_size bs rank)).
  rewrite (each_rank_closed _ (fun rank _ => computed rank)).
  2:{ intros i p Hp. pose proof (lookup_lt_Some _ _ _ Hp).
      destruct (proj1 (Forall_lookup _ _) Hsync i p Hp) as [Hb Hl].
      rewrite (worker_step_closed cfg w_size n_range workers even)
        by (fold n len; (done || lia || congruence)).
      fold n len s2. by rewrite Hb. }
  cbn [mbind option_bind]. rewrite imap_seq_0, Hw.
  assert (to_int (bodies_per_process n w_size)
          = Some (bodies_per_process n w_size)) as ->.
  { unfold to_int, bodies_per_process.
    pose proof (Z.div_le_upper_bound n (Z.of_nat w_size) n).
    destruct (Z.leb_spec (n / Z.of_nat w_size) INT_MAX); [done|nia]. }
  cbn [mbind option_bind]. fold len.
  rewrite (each_rank_closed _
             (fun _ p => Process (next_store cfg bs) (local_bodies p))).
  2:{ intros i p [rank [-> [_ Hr]%elem_of_seq]]%list_elem_of_lookup_2%list_elem_of_fmap.
      rewrite <- list_fmap_compose. cbn [bodies local_bodies computed].
      rewrite MPI_Allgather_closed.
      - cbn [mbind option_bind].
        change (local_bodies ∘ _) with (advanced_slice cfg w_size bs).
        by rewrite (advanced_slices cfg w_size n_range workers even).
      - apply Forall_fmap, Forall_seq. intros r Hr'. cbn.
        apply (length_advanced_slice cfg w_size n_range workers even);
          [lia|done].
      - rewrite length_partly_accelerated, length_fmap, length_seq, Hbs.
        apply (store_size cfg w_size n_range workers even). }
  cbn [mbind option_bind].
  change (fun (i : nat) (a : process) =>
            Process (next_store cfg bs) (local_bodies a))
    with (fun _ : nat => fun a : process =>
            Process (next_store cfg bs) (local_bodies a)).
  rewrite (imap_const (fun a => Process (next_store cfg bs) (local_bodies a))).
  rewrite <- list_fmap_compose.
  change (_ ∘ _ <$> seq 0 w_size) with (after_exchange cfg w_size bs).
  assert (after_exchange cfg w_size bs !! 0
          = Some (Process (next_store cfg bs) (advanced_slice cfg w_size bs 0)))
    as -> by (unfold after_exchange;
              by rewrite list_lookup_fmap, lookup_seq_lt by lia).
  cbn [mbind option_bind bodies].
  rewrite record_accelerations_closed
    by (rewrite ?length_next_store; fold n; lia).
  cbn [mbind option_bind].
  rewrite (take_ge (next_store cfg bs))
    by (rewrite length_next_store; fold n; lia).
  done.
Qed.

Lemma steps_closed (K : nat) procs bs acc :
  length procs = w_size -> synchronized bs len procs ->
  length bs = Z.to_nat n -> (K = 0 \/ (n <= INT_MAX)%Z) ->
  K * (2 * Z.to_nat n) <= length acc ->
  exists procs',
    for_loop K 0 (fun _ => step cfg w_size) (procs, acc, 0)
    = Some (procs',
            acceleration_pairs (traced cfg bs K) ++ drop (K * (2 * Z.to_nat n)) acc,
            K * (2 * Z.to_nat n))
    /\ length procs' = w_size
    /\ synchronized (store_after cfg bs K) len procs'.
Proof.
  intros Hw Hsync Hbs Hint Hacc.
  destruct (for_loop_invariant
              (fun k '(procs', acc', next') =>
                 length procs' = w_size
                 /\ synchronized (store_after cfg bs k) len procs'
                 /\ acc' = acceleration_pairs (traced cfg bs k)
                           ++ drop (k * (2 * Z.to_nat n)) acc
                 /\ next' = k * (2 * Z.to_nat n))
              K 0 (fun _ => step cfg w_size) (procs, acc, 0))
    as ([[procs' acc'] next'] & E & Hw' & Hs' & -> & ->).
  - by rewrite Nat.mul_0_l, drop_0.
  - intros k [[procs_k acc_k] next_k] Hk (Hwk & Hsk & -> & ->).
    assert (length (acceleration_pairs (traced cfg bs k)) = k * (2 * Z.to_nat n))
      as Hlen by (rewrite length_acceleration_pairs, length_traced; lia).
    rewrite (step_closed _ (store_after cfg bs k))
      by (rewrite ?length_store_after, ?length_app, ?length_drop; (done || nia)).
    eexists. split; [reflexivity|].
    destruct (synchronized_after_exchange (store_after cfg bs k))
      as [? ?]; [by rewrite length_store_after|].
    split; [done|]. split; [done|]. split; [|lia].
    rewrite take_app_length' by done.
    rewrite drop_app_add' by done.
    rewrite drop_drop, traced_S, acceleration_pairs_app, <- !app_assoc.
    do 3 f_equal. lia.
  - by exists procs'.
Qed.

Lemma run_steps_closed (k : nat) procs root acc :
  procs !! 0 = Some root -> length procs = w_size ->
  Forall (fun p => length (bodies p) = Z.to_nat n
                   /\ length (local_bodies p) = len) procs ->
  (n <= INT_MAX)%Z ->
  k * (2 * Z.to_nat n) <= length acc ->
  exists procs',
    run_steps cfg w_size k procs acc
    = Some (procs',
            acceleration_pairs (traced cfg (bodies root) k)
            ++ drop (k * (2 * Z.to_nat n)) acc,
            k * (2 * Z.to_nat n))
    /\ length procs' = w_size
    /\ synchronized (store_after cfg (bodies root) k) len procs'.
Proof.
  intros Hroot Hw Hsizes Hint Hacc. unfold run_steps, broadcast. fold n.
  assert (to_int n = Some n) as ->
    by (unfold to_int; by destruct (Z.leb_spec n INT_MAX); [|lia]).
  cbn [mbind option_bind].
  rewrite Hroot. cbn [mbind option_bind].
  pose proof (proj1 (Forall_lookup _ _) Hsizes 0 root Hroot) as [Hr _].
  rewrite (each_rank_closed _
             (fun _ p => Process (bodies root) (local_bodies p))).
  2:{ intros i p Hp.
      destruct (proj1 (Forall_lookup _ _) Hsizes i p Hp) as [Hb _].
      by rewrite MPI_Bcast_closed. }
  cbn [mbind option_bind].
  change (fun (i : nat) (a : process) =>
            Process (bodies root) (local_bodies a))
    with (fun _ : nat => fun a : process =>
            Process (bodies root) (local_bodies a)).
  rewrite (imap_const (fun a => Process (bodies root) (local_bodies a))).
  apply steps_closed; try done.
  - by rewrite length_fmap.
  - apply Forall_fmap. eapply Forall_impl; [exact Hsizes|].
    by intros p [_ Hl].
  - by right.
Qed.

Lemma simulate_closed (K : Z) procs root acc :
  procs !! 0 = Some root -> length procs = w_size ->
  Forall (fun p => length (bodies p) = Z.to_nat n
                   /\ length (local_bodies p) = len) procs ->
  (n <= INT_MAX)%Z ->
  length acc = Z.to_nat K * (2 * Z.to_nat n) ->
  simulate cfg w_size K procs acc
  = Some (acceleration_pairs (traced cfg (bodies root) (Z.to_nat K))).
Proof.
  intros Hroot Hw Hsizes Hint Hacc. unfold simulate.
  destruct (run_steps_closed (Z.to_nat K) procs root acc)
    as (procs' & -> & _); try done.
  - lia.
  - cbn [mbind option_bind]. by rewrite drop_ge, app_nil_r by lia.
Qed.
End Job.

(** ** Runs that reach the end *)

Lemma body_count_range c argv :
  (0 <= body_count (parse_arguments c argv) < 2 ^ SIZE_WIDTH)%Z.
Proof. cbn. apply Z.mod_pos_bound. done. Qed.

Lemma length_malloc {A} (fresh : nat -> A) (count elt : Z) :
  (0 < elt)%Z -> length (malloc fresh (elt * count) elt) = Z.to_nat count.
Proof.
  intros. unfold malloc. rewrite length_fmap, length_seq.
  by rewrite Z.mul_comm, Z.div_mul by lia.
Qed.

Lemma start_closed c h w_size argv iterations rank :
  runs c w_size argv iterations ->
  start c h w_size argv rank
  = let '(p, acc, out) := at_broadcast c h w_size argv iterations rank in
    Ready p acc out.
Proof.
  intros [Hargs Hw Heven Hsteps Hrange Hstore Htrace Hindex Ha1 Ha2 Ha3].
  pose proof (body_count_range c argv) as Hn.
  pose proof (bodies_per_process_nonneg _ _ Hn Hw) as Hlen.
  pose proof (slices_total _ _ Hw Heven) as Htotal.
  unfold start, at_broadcast.
  set (cfg := parse_arguments c argv) in *. set (n := body_count cfg) in *.
  destruct (Z.ltb_spec (argc argv) 6) as [?|_]; [lia|].
  rewrite wrap_small by (unfold sizeof_body_t in *; lia).
  rewrite Ha1. cbn [negb].
  assert (iterations_of cfg = Some iterations) as Hit
    by (by apply to_size_t_trunc).
  assert (acceleration_entries iterations n = iterations * n * 2)%Z as Hentries.
  { unfold acceleration_entries, sizeof_float in *.
    rewrite (wrap_small (iterations * n)) by nia. apply wrap_small. nia. }
  assert (wrap (sizeof_body_t * bodies_per_process n w_size)
          = sizeof_body_t * bodies_per_process n w_size)%Z as Hslice
    by (apply wrap_small; unfold sizeof_body_t in *; nia).
  destruct (decide (rank = 0)) as [->|Hrank].
  - rewrite generate_debug_data_closed by (by rewrite length_malloc).
    cbn [mbind option_bind].
    rewrite drop_ge, app_nil_r by (by rewrite length_malloc).
    rewrite print_bodies_closed by (by rewrite length_generated).
    cbn [mbind option_bind].
    rewrite take_ge by (by rewrite length_generated).
    fold n. rewrite Heven. cbn [negb]. rewrite Hslice, Ha2. cbn [negb].
    rewrite Hit, Hentries.
    rewrite wrap_small by (unfold sizeof_float in *; nia).
    by rewrite Ha3.
  - fold n. rewrite Heven. cbn [negb]. rewrite Hslice, Ha2. cbn [negb].
    by rewrite Hit.
Qed.

Lemma mapM_ready (f : nat -> process * list float * list out_line)
    (l : list nat) :
  mapM ready ((fun r => let '(p, acc, out) := f r in Ready p acc out) <$> l)
  = Some (f <$> l).
Proof.
  induction l as [|r l IH]; [done|].
  rewrite !fmap_cons. cbn [mapM]. destruct (f r) as [[p acc] out] eqn:E.
  cbn [ready mbind option_bind]. rewrite IH. done.
Qed.

Lemma main_closed c h w_size argv iterations :
  runs c w_size argv iterations ->
  (body_count (parse_arguments c argv) <= INT_MAX)%Z ->
  main c h w_size argv = completed c argv iterations <$> seq 0 w_size.
Proof.
  intros Hruns Hcount.
  pose proof Hruns
    as [Hargs Hw Heven Hsteps Hrange Hstore Htrace Hindex Ha1 Ha2 Ha3].
  pose proof (body_count_range c argv) as Hn.
  pose proof (bodies_per_process_nonneg _ _ Hn Hw) as Hlen.
  unfold main.
  rewrite (list_fmap_ext (start c h w_size argv)
             (fun r => let '(p, acc, out) :=
                         at_broadcast c h w_size argv iterations r in
                       Ready p acc out))
    by (intros; by apply start_closed).
  rewrite mapM_ready.
  set (cfg := parse_arguments c argv) in *. set (n := body_count cfg) in *.
  assert (iterations_of cfg = Some iterations) as ->
    by (by apply to_size_t_trunc).
  cbn [mbind option_bind].
  assert (acceleration_entries iterations n = iterations * n * 2)%Z as ->.
  { unfold acceleration_entries, sizeof_float in *.
    rewrite (wrap_small (iterations * n)) by nia. apply wrap_small. nia. }
  rewrite !list_lookup_fmap, lookup_seq_lt by done.
  cbn [fmap option_fmap option_map default snd fst mbind option_bind
       at_broadcast compose Nat.add].
  rewrite decide_True by done. fold cfg n.
  rewrite <- !list_fmap_compose.
  rewrite (simulate_closed cfg w_size Hn Hw Heven iterations _
             (fst (fst (at_broadcast c h w_size argv iterations 0)))).
  - cbn [mbind option_bind at_broadcast fst bodies]. rewrite decide_True by done.
    fold cfg.
    rewrite print_accelerations_closed.
    + rewrite imap_seq_0, length_fmap, length_seq. done.
    + rewrite length_traced, length_generated. fold n. lia.
  - by rewrite list_lookup_fmap, lookup_seq_lt by done.
  - by rewrite length_fmap, length_seq.
  - apply Forall_fmap, Forall_seq. intros r _.
    cbn [compose at_broadcast fst bodies local_bodies]. fold cfg n.
    split; [|by rewrite length_malloc].
    destruct (decide (r = 0)); [apply length_generated|by rewrite length_malloc].
  - done.
  - unfold id. rewrite decide_True, length_malloc by done. fold n.
    rewrite !Z2Nat.inj_mul by lia. change (Z.to_nat 2) with 2. lia.
Qed.

(** ** The states of a run *)

(** After [k] steps of a run every rank holds [store_after ... k]. *)
Lemma stores_of_run c h w_size argv iterations (k : nat) :
  runs c w_size argv iterations ->
  (body_count (parse_arguments c argv) <= INT_MAX)%Z ->
  k <= Z.to_nat iterations ->
  exists procs acc,
    state_after c h w_size argv k
    = Some (procs, acc, k * (2 * Z.to_nat (body_count (parse_arguments c argv))))
    /\ length procs = w_size
    /\ synchronized
         (store_after (parse_arguments c argv)
            (generated c (parse_arguments c argv)) k)
         (Z.to_nat (bodies_per_process
                      (body_count (parse_arguments c argv)) w_size))
         procs.
Proof.
  intros Hruns Hcount Hk.
  pose proof Hruns
    as [Hargs Hw Heven Hsteps Hrange Hstore Htrace Hindex Ha1 Ha2 Ha3].
  pose proof (body_count_range c argv) as Hn.
  pose proof (bodies_per_process_nonneg _ _ Hn Hw) as Hlen.
  unfold state_after.
  rewrite (list_fmap_ext (start c h w_size argv)
             (fun r => let '(p, acc, out) :=
                         at_broadcast c h w_size argv iterations r in
                       Ready p acc out))
    by (intros; by apply start_closed).
  rewrite mapM_ready. cbn [mbind option_bind].
  rewrite !list_lookup_fmap, lookup_seq_lt by done.
  rewrite <- !list_fmap_compose.
  cbn [fmap option_fmap option_map default Nat.add].
  set (cfg := parse_arguments c argv) in *. set (n := body_count cfg) in *.
  destruct (run_steps_closed cfg w_size Hn Hw Heven k
              (fst ∘ fst ∘ at_broadcast c h w_size argv iterations
                 <$> seq 0 w_size)
              (fst (fst (at_broadcast c h w_size argv iterations 0)))
              ((snd ∘ fst) (at_broadcast c h w_size argv iterations 0)))
    as (procs' & E & Hw' & Hs').
  - by rewrite list_lookup_fmap, lookup_seq_lt by done.
  - by rewrite length_fmap, length_seq.
  - apply Forall_fmap, Forall_seq. intros r _.
    cbn [compose at_broadcast fst bodies local_bodies]. fold cfg n.
    split; [|by rewrite length_malloc].
    destruct (decide (r = 0)); [apply length_generated|by rewrite length_malloc].
  - done.
  - cbn [compose at_broadcast fst snd]. rewrite decide_True, length_malloc by done.
    fold cfg n. rewrite !Z2Nat.inj_mul by lia. change (Z.to_nat 2) with 2. nia.
  - unfold id. rewrite E. cbn [at_broadcast fst bodies] in *.
    rewrite decide_True in Hs' by done. fold cfg n in Hs' |- *. eauto.
Qed.

Lemma lookup_traced cfg (bs : list body_t) (K k i : nat) :
  k < K -> i < length bs ->
  traced cfg bs K !! (k * length bs + i) = store_after cfg bs (S k) !! i.
Proof.
  intros Hk Hi. induction K as [|K IH]; [lia|].
  rewrite traced_S. destruct (decide (k = K)) as [->|Hne].
  - rewrite lookup_app_r by (rewrite length_traced; lia).
    rewrite length_traced. f_equal. lia.
  - rewrite lookup_app_l by (rewrite length_traced; nia). apply IH. lia.
Qed.

Lemma mass_next_store cfg (bs : list body_t) :
  mass <$> next_store cfg bs = mass <$> bs.
Proof.
  unfold next_store. rewrite fmap_imap, <- (imap_const mass).
  by apply imap_ext.
Qed.

Lemma mass_store_after cfg (bs : list body_t) (k : nat) :
  mass <$> store_after cfg bs k = mass <$> bs.
Proof.
  induction k as [|k IH]; [done|].
  change (store_after cfg bs (S k)) with (next_store cfg (store_after cfg bs k)).
  by rewrite mass_next_store.
Qed.

Lemma main_leader c h w_size argv iterations :
  runs c w_size argv iterations ->
  (body_count (parse_arguments c argv) <= INT_MAX)%Z ->
  main c h w_size argv !! 0 = Some (completed c argv iterations 0).
Proof.
  intros Hruns Hcount. rewrite (main_closed _ _ _ _ _ Hruns Hcount).
  rewrite list_lookup_fmap, lookup_seq_lt by apply Hruns. done.
Qed.

(** A body count above [INT_MAX], in a job that makes no step: the
    broadcast has no count. *)
Lemma main_count_overflows c h w_size argv iterations :
  runs c w_size argv iterations ->
  (INT_MAX < body_count (parse_arguments c argv))%Z ->
  main c h w_size argv = (fun _ => Result [] [] UNDEFINED) <$> seq 0 w_size.
Proof.
  intros Hruns Hcount. unfold main.
  rewrite (list_fmap_ext (start c h w_size argv)
             (fun r => let '(p, acc, out) :=
                         at_broadcast c h w_size argv iterations r in
                       Ready p acc out))
    by (intros; by apply start_closed).
  rewrite mapM_ready.
  assert (iterations_of (parse_arguments c argv) = Some iterations) as ->
    by (apply to_size_t_trunc; apply Hruns).
  cbn [mbind option_bind]. unfold simulate, run_steps, broadcast, to_int.
  destruct (Z.leb_spec (body_count (parse_arguments c argv)) INT_MAX);
    [lia|].
  cbn [mbind option_bind]. by rewrite <- list_fmap_compose.
Qed.

(** Closed instances of [runs] are settled by evaluation. *)
Ltac evaluate :=
  lazymatch goal with
  | |- (_ <= _ < _)%Z => split; evaluate
  | |- (_ <= _)%Z => apply Z.leb_le; vm_compute; reflexivity
  | |- (_ < _)%Z => apply Z.ltb_lt; vm_compute; reflexivity
  | |- _ < _ => apply Nat.ltb_lt; vm_compute; reflexivity
  | |- _ <= _ => apply Nat.leb_le; vm_compute; reflexivity
  | |- _ \/ _ => first [left; evaluate | right; evaluate]
  | |- _ = _ => vm_compute; reflexivity
  end.

Lemma runs_two_steps : runs Demo.c 2 Demo_run.arguments 2.
Proof. split; evaluate. Qed.

Lemma runs_no_step : runs Demo.c 1 Demo_run.short_arguments 0.
Proof. split; evaluate. Qed.

(** ** The worker's step (C3) *)

Lemma lookup_accelerated_slice s2 (bs : list body_t) (lo len j : nat) (b : body_t) :
  j < len -> bs !! (lo + j) = Some b ->
  accelerated_slice s2 bs lo len !! j = Some (accelerated s2 bs (lo + j) b).
Proof.
  intros Hj Hb. unfold accelerated_slice, owned.
  by rewrite list_lookup_imap, lookup_take_lt, lookup_drop, Hb by done.
Qed.

(** C3, as the code has it. In a step a worker makes two passes over its
    slice. The first stores, for each owned body, the sum of the kernel's
    contributions of every other body of its store (the body itself
    skipped), in the store and in the slice buffer; all these sums are taken
    on the positions the store had when the step began. Only then does the
    second pass apply the integrator to the owned bodies, in the slice
    buffer; the store keeps the positions and velocities it had. *)
Theorem worker_step_two_passes (cfg : config) (w_size rank : nat) (p : process) :
  (0 <= body_count cfg < 2 ^ SIZE_WIDTH)%Z ->
  0 < w_size ->
  divisible (body_count cfg) w_size = true ->
  rank < w_size ->
  length (bodies p) = Z.to_nat (body_count cfg) ->
  length (local_bodies p)
  = Z.to_nat (bodies_per_process (body_count cfg) w_size) ->
  let s2 := simulation_softening_length_squared cfg in
  let len := Z.to_nat (bodies_per_process (body_count cfg) w_size) in
  let lo := rank * len in
  let sums := accelerated_slice s2 (bodies p) lo len in
  worker_step cfg w_size rank p
  = Some (Process ((take lo (bodies p) ++ sums) ++ drop (lo + len) (bodies p))
                  ((fun b => integrate b (delta_time cfg)) <$> sums))
  /\ length sums = len
  /\ forall j b, j < len -> bodies p !! (lo + j) = Some b ->
       sums !! j
       = Some (set_ay
                 (set_ax b (fst (net_acceleration s2 b (delete (lo + j) (bodies p)))))
                 (snd (net_acceleration s2 b (delete (lo + j) (bodies p))))).
Proof.
  intros Hn Hw Heven Hr Hbs Hloc s2 len lo sums.
  pose proof (slice_in_store cfg w_size Hn Hw Heven rank Hr).
  split; [exact (worker_step_closed cfg w_size Hn Hw Heven rank p Hr Hbs Hloc)|].
  split; [apply length_accelerated_slice; fold len lo; lia|].
  intros j b Hj Hb. by apply lookup_accelerated_slice.
Qed.

Lemma worker_step_two_passes_pair :
  length (bodies Pair.p) = Z.to_nat (body_count Pair.cfg)
  /\ worker_step Pair.cfg 1 0 Pair.p
     = Some (Process
               ((take 0 (bodies Pair.p)
                 ++ accelerated_slice F32.one (bodies Pair.p) 0 2)
                ++ drop 2 (bodies Pair.p))
               ((fun b => integrate b F32.one)
                  <$> accelerated_slice F32.one (bodies Pair.p) 0 2)).
Proof.
  split; [reflexivity|].
  refine (proj1 (worker_step_two_passes Pair.cfg 1 0 Pair.p _ _ _ _ _ _));
    evaluate.
Defined.

(** C3 fails as stated: on the pair, the worker gives the second body the
    acceleration [-1/sqrt(8)] due to the first body where the step began,
    at [(0, 0)]; had the first body been advanced before the second was
    looked at, the second would have got the acceleration due to the first
    body at [(1/sqrt(8), 0)]. *)
Lemma step_is_not_interleaved :
  Pair.accelerations (worker_step Pair.cfg 1 0 Pair.p)
  = Some [(S754_finite false 11863283 (-25), F32.zero);
          (S754_finite true 11863283 (-25), F32.zero)]
  /\ Pair.accelerations (interleaved_worker_step Pair.cfg 1 0 Pair.p)
     = Some [(S754_finite false 11863283 (-25), F32.zero);
             (S754_finite true 12847460 (-25), F32.zero)]
  /\ worker_step Pair.cfg 1 0 Pair.p
     <> interleaved_worker_step Pair.cfg 1 0 Pair.p.
Proof.
  split; [vm_compute; reflexivity|]. split; [vm_compute; reflexivity|].
  intros H. apply (f_equal Pair.accelerations) in H. vm_compute in H.
  discriminate H.
Qed.

(** ** What reaches the output *)

Lemma first_bytes_0 (length_of : out_line -> nat) (out : list out_line) :
  first_bytes length_of 0 out = [].
Proof. by destruct out. Qed.

Lemma transmitted_nil c : transmitted c [] = [].
Proof. unfold transmitted. by destruct (stdout_buffering c). Qed.

Lemma transmitted_line_buffered c (printed : list out_line) :
  stdout_buffering c = Line_buffered -> transmitted c printed = printed.
Proof. unfold transmitted. by intros ->. Qed.

Lemma transmitted_fully_buffered c (size : nat) (printed : list out_line) :
  stdout_buffering c = Fully_buffered size ->
  text_length (printf_length c) printed < size ->
  transmitted c printed = [].
Proof.
  unfold transmitted. intros -> Hsmall.
  by rewrite Nat.div_small, first_bytes_0.
Qed.

Lemma length_dump (bs : list body_t) :
  length (concat (print_body <$> bs)) = 4 * length bs.
Proof.
  induction bs as [|b bs IH]; [done|].
  rewrite fmap_cons. cbn [concat]. rewrite length_app, IH. cbn [length print_body].
  lia.
Qed.

Lemma lookup_dump (bs : list body_t) (i j : nat) (b : body_t) :
  bs !! i = Some b -> j < 4 ->
  concat (print_body <$> bs) !! (4 * i + j) = print_body b !! j.
Proof.
  revert i. induction bs as [|b0 bs IH]; intros [|i] Hb Hj; try done.
  - injection Hb as ->. rewrite fmap_cons. cbn [concat].
    rewrite lookup_app_l by (cbn [length print_body]; lia).
    by replace (4 * 0 + j) with j by lia.
  - rewrite fmap_cons. cbn [concat].
    rewrite lookup_app_r by (cbn [length print_body]; lia).
    cbn [length print_body].
    replace (4 * S i + j - 4) with (4 * i + j) by lia.
    by apply IH.
Qed.

(** The lines the leader has given to [printf] when the steps begin are
    the header and the dump of the generated bodies. *)
Lemma initial_output_shown c cfg :
  shows_initial_state cfg (generated c cfg) (initial_output c cfg).
Proof.
  unfold shows_initial_state, initial_output.
  split; [by rewrite length_app, length_dump|].
  do 3 (split; [done|]).
  intros i b Hb.
  rewrite !lookup_app_r by (cbn [length print_header]; lia).
  cbn [length print_header].
  replace (3 + 4 * i - 3) with (4 * i + 0) by lia.
  replace (3 + 4 * i + 1 - 3) with (4 * i + 1) by lia.
  replace (3 + 4 * i + 2 - 3) with (4 * i + 2) by lia.
  replace (3 + 4 * i + 3 - 3) with (4 * i + 3) by lia.
  by rewrite !(lookup_dump _ _ _ b) by (done || lia).
Qed.

(** ** Runs that stop early (C4, C6) *)

Lemma main_stopped c h w_size argv (g : nat -> result) :
  (forall rank, start c h w_size argv rank = Stopped (g rank)) ->
  main c h w_size argv = g <$> seq 0 w_size.
Proof.
  intros H. unfold main.
  rewrite (list_fmap_ext (start c h w_size argv) (fun r => Stopped (g r)))
    by done.
  assert (stopped_result c <$> ((fun r => Stopped (g r)) <$> seq 0 w_size)
          = g <$> seq 0 w_size) as Hres
    by (rewrite <- list_fmap_compose; by apply list_fmap_ext).
  destruct w_size as [|w].
  - cbn. by repeat case_match.
  - rewrite <- Hres. reflexivity.
Qed.

Lemma main_leader_stopped c h w_size argv :
  0 < w_size -> ready (start c h w_size argv 0) = None ->
  main c h w_size argv
  = (fun rank => stopped_result c (start c h w_size argv rank))
      <$> seq 0 w_size.
Proof.
  intros Hw Hleader. unfold main.
  assert (mapM ready (start c h w_size argv <$> seq 0 w_size) = None) as ->.
  { destruct w_size as [|w]; [lia|].
    cbn [seq fmap list_fmap mapM]. by rewrite Hleader. }
  by rewrite <- list_fmap_compose.
Qed.

Lemma start_few_arguments c h w_size argv rank :
  (argc argv < 6)%Z ->
  start c h w_size argv rank = Stopped (usage_error argv rank).
Proof.
  intros H. unfold start. by destruct (Z.ltb_spec (argc argv) 6); [|lia].
Qed.

Lemma start_uneven_split c h w_size argv rank :
  (6 <= argc argv)%Z ->
  (sizeof_body_t * body_count (parse_arguments c argv) < 2 ^ SIZE_WIDTH)%Z ->
  malloc_ok c (sizeof_body_t * body_count (parse_arguments c argv)) = true ->
  divisible (body_count (parse_arguments c argv)) w_size = false ->
  start c h w_size argv rank = Stopped (uneven_split c argv rank).
Proof.
  intros Hargs Hfits Hok Hodd.
  pose proof (body_count_range c argv) as Hn.
  unfold start, uneven_split.
  set (cfg := parse_arguments c argv) in *. set (n := body_count cfg) in *.
  destruct (Z.ltb_spec (argc argv) 6) as [?|_]; [lia|].
  rewrite wrap_small by (unfold sizeof_body_t in *; lia).
  rewrite Hok. cbn [negb].
  destruct (decide (rank = 0)) as [->|Hrank].
  - rewrite generate_debug_data_closed by (by rewrite length_malloc).
    cbn [mbind option_bind].
    rewrite drop_ge, app_nil_r by (by rewrite length_malloc).
    rewrite print_bodies_closed by (by rewrite length_generated).
    cbn [mbind option_bind].
    rewrite take_ge by (by rewrite length_generated).
    fold n. by rewrite Hodd.
  - fold n. by rewrite Hodd.
Qed.

(** The job whose leader is refused the trace buffer. *)
Lemma start_trace_refused c h w_size argv iterations rank :
  (6 <= argc argv)%Z -> 0 < w_size ->
  divisible (body_count (parse_arguments c argv)) w_size = true ->
  iterations_of (parse_arguments c argv) = Some iterations ->
  (sizeof_body_t * body_count (parse_arguments c argv) < 2 ^ SIZE_WIDTH)%Z ->
  malloc_ok c (sizeof_body_t * body_count (parse_arguments c argv)) = true ->
  malloc_ok c (sizeof_body_t
               * bodies_per_process (body_count (parse_arguments c argv)) w_size)
  = true ->
  malloc_ok c (wrap (sizeof_float
                     * acceleration_entries iterations
                         (body_count (parse_arguments c argv))))
  = false ->
  stopped_result c (start c h w_size argv rank) = trace_refused c argv rank.
Proof.
  intros Hargs Hw Heven Hit Hstore Ha1 Ha2 Ha3.
  pose proof (body_count_range c argv) as Hn.
  pose proof (bodies_per_process_nonneg _ _ Hn Hw) as Hlen.
  pose proof (slices_total _ _ Hw Heven) as Htotal.
  unfold start, trace_refused.
  set (cfg := parse_arguments c argv) in *. set (n := body_count cfg) in *.
  destruct (Z.ltb_spec (argc argv) 6) as [?|_]; [lia|].
  rewrite wrap_small by (unfold sizeof_body_t in *; lia).
  rewrite Ha1. cbn [negb].
  assert (wrap (sizeof_body_t * bodies_per_process n w_size)
          = sizeof_body_t * bodies_per_process n w_size)%Z as Hslice
    by (apply wrap_small; unfold sizeof_body_t in *; nia).
  destruct (decide (rank = 0)) as [->|Hrank].
  - rewrite generate_debug_data_closed by (by rewrite length_malloc).
    cbn [mbind option_bind].
    rewrite drop_ge, app_nil_r by (by rewrite length_malloc).
    rewrite print_bodies_closed by (by rewrite length_generated).
    cbn [mbind option_bind].
    rewrite take_ge by (by rewrite length_generated).
    fold n. rewrite Heven. cbn [negb]. rewrite Hslice, Ha2. cbn [negb].
    rewrite Hit. by rewrite Ha3.
  - fold n. rewrite Heven. cbn [negb]. rewrite Hslice, Ha2. cbn [negb].
    by rewrite Hit.
Qed.

(** C4. For a body count divisible by the worker count, rank [rank] owns
    [slice_length = body_count / worker_count] bodies from
    [rank * slice_length] on (the product does not wrap), and every index
    below [body_count] lies in the slice of exactly one rank; for a body
    count that is not divisible, every rank of a job that has allocated its
    store aborts on the assertion. *)
Theorem partitioner (n : Z) (w_size : nat) :
  (0 <= n < 2 ^ SIZE_WIDTH)%Z -> 0 < w_size ->
  (divisible n w_size = true ->
     (forall rank, rank < w_size ->
        slice_start rank (bodies_per_process n w_size)
        = (Z.of_nat rank * (n / Z.of_nat w_size))%Z)
     /\ (Z.of_nat w_size * bodies_per_process n w_size = n)%Z
     /\ (forall i, (0 <= i < n)%Z ->
           exists rank, rank < w_size
             /\ (slice_start rank (bodies_per_process n w_size) <= i
                 < slice_start rank (bodies_per_process n w_size)
                   + bodies_per_process n w_size)%Z
             /\ forall rank', rank' < w_size ->
                  (slice_start rank' (bodies_per_process n w_size) <= i
                   < slice_start rank' (bodies_per_process n w_size)
                     + bodies_per_process n w_size)%Z ->
                  rank' = rank))
  /\ (divisible n w_size = false ->
      forall c h argv,
        (6 <= argc argv)%Z ->
        body_count (parse_arguments c argv) = n ->
        (sizeof_body_t * n < 2 ^ SIZE_WIDTH)%Z ->
        malloc_ok c (sizeof_body_t * n) = true ->
        length (main c h w_size argv) = w_size
        /\ Forall (fun r => exit_status r = SIGABRT) (main c h w_size argv)).
Proof.
  intros Hn Hw. split.
  - intros Heven. split; [|split].
    + intros rank Hr. by apply slice_start_exact.
    + by apply slices_total.
    + by apply slices_partition.
  - intros Hodd c h argv Hargs <- Hfits Hok.
    rewrite (main_stopped c h w_size argv (uneven_split c argv))
      by (intros; by apply start_uneven_split).
    split; [by rewrite length_fmap, length_seq|].
    by apply Forall_fmap, Forall_seq.
Qed.

Lemma partitioner_four_by_two :
  ((0 <= 4 < 2 ^ SIZE_WIDTH)%Z /\ 0 < 2 /\ divisible 4 2 = true)
  /\ (forall rank, rank < 2 ->
        slice_start rank (bodies_per_process 4 2)
        = (Z.of_nat rank * (4 / Z.of_nat 2))%Z)
  /\ ((0 <= 3 < 2 ^ SIZE_WIDTH)%Z /\ divisible 3 2 = false)
  /\ Forall (fun r => exit_status r = SIGABRT)
        (main Demo.c Demo.h 2 (Demo.argv "2" "1" "3" "1" "1")).
Proof.
  split; [repeat split; evaluate|]. split.
  - refine (proj1 (proj1 (partitioner 4 2 _ _) eq_refl)); evaluate.
  - split; [repeat split; evaluate|].
    refine (proj2 (proj2 (partitioner 3 2 _ _) eq_refl Demo.c Demo.h
                     (Demo.argv "2" "1" "3" "1" "1") _ _ _ _)); evaluate.
Defined.

(** C6, as the code has it. With fewer than six arguments every rank
    prints the usage message to the error stream and exits with failure,
    having written nothing to the output. With a body count the worker
    count does not divide, every rank aborts on the assertion, which it
    reports on the error stream, before the broadcast and any step, but
    after the leader has generated the bodies and given the header and the
    initial state to [printf]. Nothing flushes the output before the
    process is aborted: what the leader has written is all of these lines
    when its output is line buffered, nothing when it is fully buffered and
    their text is shorter than the buffer, and otherwise the whole blocks
    their text has filled. In both cases no rank reaches the broadcast. *)
Theorem configuration_errors c h w_size argv :
  ((argc argv < 6)%Z ->
     main c h w_size argv
     = (fun _ => Result [] [Usage (arg argv 0)] EXIT_FAILURE) <$> seq 0 w_size
     /\ forall rank, ready (start c h w_size argv rank) = None)
  /\ ((6 <= argc argv)%Z ->
      (sizeof_body_t * body_count (parse_arguments c argv) < 2 ^ SIZE_WIDTH)%Z ->
      malloc_ok c (sizeof_body_t * body_count (parse_arguments c argv)) = true ->
      divisible (body_count (parse_arguments c argv)) w_size = false ->
      exists printed,
        shows_initial_state (parse_arguments c argv)
          (generated c (parse_arguments c argv)) printed
        /\ main c h w_size argv
           = (fun rank =>
                Result (if decide (rank = 0) then transmitted c printed else [])
                       [Assertion_failed "body_count % w_size == 0"] SIGABRT)
               <$> seq 0 w_size
        /\ (forall rank, ready (start c h w_size argv rank) = None)
        /\ (stdout_buffering c = Line_buffered ->
            transmitted c printed = printed)
        /\ (forall size, stdout_buffering c = Fully_buffered size ->
              transmitted c printed
              = first_bytes (printf_length c)
                  (text_length (printf_length c) printed / size * size)
                  printed
              /\ (text_length (printf_length c) printed < size ->
                  transmitted c printed = []))).
Proof.
  split.
  - intros Hargs. split.
    + apply main_stopped. intros. by apply start_few_arguments.
    + intros rank. by rewrite start_few_arguments.
  - intros Hargs Hfits Hok Hodd.
    exists (initial_output c (parse_arguments c argv)).
    split; [apply initial_output_shown|]. split; [|split; [|split]].
    + rewrite (main_stopped c h w_size argv (uneven_split c argv))
        by (intros; by apply start_uneven_split).
      apply list_fmap_ext. intros _ rank _. unfold uneven_split.
      destruct (decide (rank = 0)); [done|]. by rewrite transmitted_nil.
    + intros rank. by rewrite start_uneven_split.
    + apply transmitted_line_buffered.
    + intros size Hfull. split.
      * unfold transmitted. by rewrite Hfull.
      * by apply transmitted_fully_buffered.
Qed.

Lemma configuration_errors_demo :
  ((argc ["nbody-mpi"; "2"]%string < 6)%Z
   /\ main Demo.c Demo.h 2 ["nbody-mpi"; "2"]%string
      = [Result [] [Usage "nbody-mpi"] EXIT_FAILURE;
         Result [] [Usage "nbody-mpi"] EXIT_FAILURE])
  /\ (divisible
        (body_count (parse_arguments Demo.c Demo_run.uneven_arguments)) 2
      = false
      /\ exists printed,
           length printed = 15
           /\ main Demo.c Demo.h 2 Demo_run.uneven_arguments
              = [Result printed
                   [Assertion_failed "body_count % w_size == 0"] SIGABRT;
                 Result []
                   [Assertion_failed "body_count % w_size == 0"] SIGABRT]).
Proof.
  split; (split; [evaluate|]).
  - refine (proj1 (proj1 (configuration_errors Demo.c Demo.h 2
                            ["nbody-mpi"; "2"]%string) _)).
    evaluate.
  - destruct (proj2 (configuration_errors Demo.c Demo.h 2
                       Demo_run.uneven_arguments))
      as (printed & Hshown & Hmain & _ & Hline & _); [evaluate..|].
    exists printed. split.
    + destruct Hshown as [-> _]. by rewrite length_generated.
    + rewrite Hmain. cbn [seq fmap list_fmap]. rewrite decide_True by done.
      rewrite decide_False by done. by rewrite Hline.
Defined.

(** C6 fails as stated: with three bodies, two workers and the output on
    a terminal, the leader has written the header and the initial state,
    fifteen lines, when the assertion stops it. *)
Lemma output_before_assertion :
  stdout_buffering Demo.c = Line_buffered
  /\ exists r,
       main Demo.c Demo.h 2 Demo_run.uneven_arguments !! 0 = Some r
       /\ exit_status r = SIGABRT
       /\ stderr r = [Assertion_failed "body_count % w_size == 0"]
       /\ length (stdout r) = 15
       /\ stdout r !! 0 = Some (Line_zu 3).
Proof.
  split; [reflexivity|].
  eexists. split; [vm_compute; reflexivity|]. repeat split.
Qed.

(** With the same arguments and the output redirected to a file, behind a
    buffer of 4096 bytes, none of the 218 bytes of these lines has been
    written when the leader is aborted. *)
Lemma output_lost_in_the_buffer :
  text_length (printf_length Demo.redirected)
    (initial_output Demo.redirected
       (parse_arguments Demo.redirected Demo_run.uneven_arguments)) = 218
  /\ main Demo.redirected Demo.h 2 Demo_run.uneven_arguments
     = [Result [] [Assertion_failed "body_count % w_size == 0"] SIGABRT;
        Result [] [Assertion_failed "body_count % w_size == 0"] SIGABRT].
Proof. split; vm_compute; reflexivity. Qed.

(** ** The trace (C5, C10) and what it depends on (C7, C9) *)

(** C5, as the code has it. In a run that reaches its end the number of
    steps is the integral part of [time_period / delta_time], the quotient
    converted to [size_t]: its floor when the quotient is not negative, and
    0, with the floor -1, when it lies between -1 and 0. The leader's
    output is the header and the initial state followed by the trace, and
    the trace has [iterations * body_count] lines ["ax ay"], step-major and
    body-index-minor: line [k * body_count + i] holds the acceleration of
    body [i] in the store all ranks hold after the exchange of step [k]. *)
Theorem trace_of_run c h w_size argv iterations :
  runs c w_size argv iterations ->
  (body_count (parse_arguments c argv) <= INT_MAX)%Z ->
  let cfg := parse_arguments c argv in
  let n := Z.to_nat (body_count cfg) in
  let quotient := F32.div (time_period cfg) (delta_time cfg) in
  iterations_of cfg = Some iterations
  /\ F32.trunc quotient = Some iterations
  /\ (F32.floor quotient = Some iterations
      \/ (iterations = 0%Z /\ F32.floor quotient = Some (-1)%Z))
  /\ (exists initial,
        shows_initial_state cfg (generated c cfg) initial
        /\ main c h w_size argv !! 0
           = Some (Result (initial ++ trace_lines c cfg iterations)
                          [] EXIT_SUCCESS))
  /\ length (trace_lines c cfg iterations) = Z.to_nat iterations * n
  /\ forall k, k < Z.to_nat iterations ->
       exists procs acc next,
         state_after c h w_size argv (S k) = Some (procs, acc, next)
         /\ length procs = w_size
         /\ forall p i b, p ∈ procs -> bodies p !! i = Some b ->
              trace_lines c cfg iterations !! (k * n + i)
              = Some (Line_ff (ax b) (ay b)).
Proof.
  intros Hruns Hcount cfg n quotient.
  assert (iterations_of cfg = Some iterations) as Hit
    by (apply to_size_t_trunc; apply Hruns).
  split; [done|]. split; [apply Hruns|].
  split; [apply trunc_floor; apply Hruns|].
  split.
  { exists (initial_output c cfg). split; [apply initial_output_shown|].
    by rewrite (main_leader _ _ _ _ _ Hruns Hcount). }
  assert (length (generated c cfg) = n) as Hgen by apply length_generated.
  split.
  { unfold trace_lines. by rewrite length_fmap, length_traced, Hgen. }
  intros k Hk.
  destruct (stores_of_run c h w_size argv iterations (S k) Hruns Hcount)
    as (procs & acc & E & Hw & Hsync); [lia|].
  exists procs, acc, (S k * (2 * Z.to_nat (body_count cfg))).
  split; [done|]. split; [done|].
  intros p i b Hp Hb.
  unfold synchronized in Hsync. rewrite Forall_forall in Hsync.
  destruct (Hsync p Hp) as [Hstore _].
  fold cfg in Hstore. rewrite Hstore in Hb.
  pose proof (lookup_lt_Some _ _ _ Hb) as Hi.
  rewrite length_store_after in Hi.
  unfold trace_lines. rewrite list_lookup_fmap, <- Hgen.
  rewrite lookup_traced, Hb by done. done.
Qed.

Lemma trace_of_two_steps :
  (runs Demo.c 2 Demo_run.arguments 2
   /\ (body_count (parse_arguments Demo.c Demo_run.arguments) <= INT_MAX)%Z)
  /\ length (trace_lines Demo.c (parse_arguments Demo.c Demo_run.arguments) 2)
     = 2 * 4.
Proof.
  split; [split; [exact runs_two_steps|evaluate]|].
  refine (proj1 (proj2 (proj2 (proj2 (proj2
            (trace_of_run Demo.c Demo.h 2 Demo_run.arguments 2
               runs_two_steps _)))))).
  evaluate.
Defined.

(** C5 fails as stated: with the time period -1 and the time step 2 the
    quotient is -0.5, whose floor is -1; the conversion to [size_t]
    discards the fraction and gives no step, and the run reaches its end:
    the leader writes the header and the initial state of the one body,
    seven lines, and no trace, and exits successfully. *)
Lemma steps_are_not_the_floor :
  F32.div (time_period (parse_arguments Demo.c Demo_run.backward_arguments))
          (delta_time (parse_arguments Demo.c Demo_run.backward_arguments))
  = S754_finite true 8388608 (-24)
  /\ F32.floor (S754_finite true 8388608 (-24)) = Some (-1)%Z
  /\ iterations_of (parse_arguments Demo.c Demo_run.backward_arguments)
     = Some 0%Z
  /\ runs Demo.c 1 Demo_run.backward_arguments 0
  /\ exists r,
       main Demo.c Demo.h 1 Demo_run.backward_arguments = [r]
       /\ exit_status r = EXIT_SUCCESS
       /\ stderr r = []
       /\ length (stdout r) = 7.
Proof.
  split; [vm_compute; reflexivity|]. split; [vm_compute; reflexivity|].
  split; [vm_compute; reflexivity|]. split; [split; evaluate|].
  eexists. split; [vm_compute; reflexivity|]. repeat split.
Qed.

(** The job whose leader is refused the empty trace buffer. *)
Lemma main_trace_refused c h w_size argv :
  (6 <= argc argv)%Z -> 0 < w_size ->
  divisible (body_count (parse_arguments c argv)) w_size = true ->
  iterations_of (parse_arguments c argv) = Some 0%Z ->
  (sizeof_body_t * body_count (parse_arguments c argv) < 2 ^ SIZE_WIDTH)%Z ->
  malloc_ok c (sizeof_body_t * body_count (parse_arguments c argv)) = true ->
  malloc_ok c (sizeof_body_t
               * bodies_per_process (body_count (parse_arguments c argv)) w_size)
  = true ->
  malloc_ok c 0 = false ->
  main c h w_size argv = trace_refused c argv <$> seq 0 w_size.
Proof.
  intros Hargs Hw Heven Hit Hstore Ha1 Ha2 Ha3.
  assert (forall rank,
            stopped_result c (start c h w_size argv rank)
            = trace_refused c argv rank) as Hstart.
  { intros rank. by apply (start_trace_refused c h w_size argv 0). }
  rewrite main_leader_stopped; [by apply list_fmap_ext| done |].
  pose proof (Hstart 0) as H0. unfold trace_refused in H0.
  rewrite decide_True in H0 by done.
  destruct (start c h w_size argv 0); [done|discriminate H0].
Qed.

(** C10, as the code has it. When the integral part of
    [time_period / delta_time] is 0 (its floor is 0 or -1), the arguments
    are enough, the worker count divides the body count, which an [int]
    can hold, and the store and the slice buffer are allocated, all depends
    on what [malloc] returns for the empty trace, a request of 0 bytes.
    Where it returns a block, the run reaches its end: the leader prints
    the header and the initial state and nothing else, every rank exits
    successfully, and every rank is left with the generated store, no step
    having been made. Where it returns a null pointer, the leader aborts on
    the assertion, with what has left the buffer of its output written,
    and the other ranks are left waiting at the broadcast. *)
Theorem run_without_steps c h w_size argv :
  let cfg := parse_arguments c argv in
  (6 <= argc argv)%Z -> 0 < w_size ->
  divisible (body_count cfg) w_size = true ->
  F32.trunc (F32.div (time_period cfg) (delta_time cfg)) = Some 0%Z ->
  (body_count cfg <= INT_MAX)%Z ->
  malloc_ok c (sizeof_body_t * body_count cfg) = true ->
  malloc_ok c (sizeof_body_t * bodies_per_process (body_count cfg) w_size)
  = true ->
  exists printed,
    shows_initial_state cfg (generated c cfg) printed
    /\ trace_lines c cfg 0 = []
    /\ (malloc_ok c 0 = true ->
        main c h w_size argv
        = (fun rank =>
             Result (if decide (rank = 0) then printed else [])
                    [] EXIT_SUCCESS) <$> seq 0 w_size
        /\ exists procs acc,
             state_after c h w_size argv 0 = Some (procs, acc, 0)
             /\ length procs = w_size
             /\ Forall (fun p => bodies p = generated c cfg) procs)
    /\ (malloc_ok c 0 = false ->
        main c h w_size argv
        = (fun rank =>
             if decide (rank = 0)
             then Result (transmitted c printed)
                         [Assertion_failed "accelerations != NULL"] SIGABRT
             else Result [] [] BLOCKED) <$> seq 0 w_size).
Proof.
  intros cfg Hargs Hw Heven Hsteps Hcount Ha1 Ha2.
  assert (sizeof_body_t * body_count cfg < 2 ^ SIZE_WIDTH)%Z as Hstore
    by (unfold sizeof_body_t, INT_MAX, SIZE_WIDTH in *; lia).
  exists (initial_output c cfg).
  split; [apply initial_output_shown|]. split; [done|]. split.
  - intros Ha3.
    assert (runs c w_size argv 0) as Hruns.
    { split; try done; try (by left);
        unfold sizeof_float, SIZE_WIDTH; fold cfg; lia. }
    split.
    + rewrite (main_closed _ _ _ _ _ Hruns Hcount). apply list_fmap_ext.
      intros _ rank _. unfold completed, leader_output. fold cfg.
      by rewrite app_nil_r.
    + destruct (stores_of_run c h w_size argv 0 0 Hruns Hcount)
        as (procs & acc & E & Hlen & Hsync); [done|].
      exists procs, acc. split; [done|]. split; [done|].
      eapply Forall_impl; [exact Hsync|]. by intros p [Hp _].
  - intros Ha3.
    rewrite main_trace_refused; try done.
    + apply list_fmap_ext. intros _ rank _. unfold trace_refused. fold cfg.
      destruct (decide (rank = 0)); [done|]. by rewrite transmitted_nil.
    + apply to_size_t_trunc; [done|]. unfold SIZE_WIDTH; lia.
Qed.

Lemma run_without_steps_demo :
  ((6 <= argc Demo_run.short_arguments)%Z
   /\ divisible (body_count (parse_arguments Demo.c Demo_run.short_arguments)) 1
      = true
   /\ F32.trunc
        (F32.div
           (time_period (parse_arguments Demo.c Demo_run.short_arguments))
           (delta_time (parse_arguments Demo.c Demo_run.short_arguments)))
      = Some 0%Z
   /\ malloc_ok Demo.c 0 = true)
  /\ exists printed,
       length printed = 11
       /\ main Demo.c Demo.h 1 Demo_run.short_arguments
          = [Result printed [] EXIT_SUCCESS].
Proof.
  split; [repeat split; evaluate|].
  destruct (run_without_steps Demo.c Demo.h 1 Demo_run.short_arguments)
    as (printed & Hshown & _ & Hmain & _); [evaluate..|].
  exists printed. split.
  - destruct Hshown as [-> _]. by rewrite length_generated.
  - by rewrite (proj1 (Hmain eq_refl)).
Defined.

(** C10 fails as stated: with the time period 1 and the time step 2 the
    floor of the quotient is 0; where [malloc] returns a null pointer for
    the empty trace, the leader aborts on the assertion instead of exiting
    successfully. *)
Lemma empty_trace_refused :
  F32.floor
    (F32.div (time_period (parse_arguments Demo.strict Demo_run.short_arguments))
             (delta_time (parse_arguments Demo.strict Demo_run.short_arguments)))
  = Some 0%Z
  /\ acceleration_entries 0
       (body_count (parse_arguments Demo.strict Demo_run.short_arguments))
     = 0%Z
  /\ malloc_ok Demo.strict 0 = false
  /\ exists r,
       main Demo.strict Demo.h 1 Demo_run.short_arguments = [r]
       /\ exit_status r = SIGABRT
       /\ stderr r = [Assertion_failed "accelerations != NULL"].
Proof.
  split; [vm_compute; reflexivity|]. split; [vm_compute; reflexivity|].
  split; [vm_compute; reflexivity|].
  eexists. split; [vm_compute; reflexivity|]. repeat split.
Qed.

(** C7. Two runs of the job with the same arguments, the same number of
    workers and the same C library (which fixes the sequence of [rand],
    never seeded) give the same results on every rank, the leader's trace
    included, whatever the fresh memory of either run holds. *)
Theorem deterministic c w_size argv iterations (h h' : heap) :
  runs c w_size argv iterations ->
  main c h w_size argv = main c h' w_size argv.
Proof.
  intros Hruns.
  destruct (Z.le_gt_cases (body_count (parse_arguments c argv)) INT_MAX)
    as [Hcount|Hcount].
  - by rewrite !(main_closed _ _ _ _ _ Hruns Hcount).
  - by rewrite !(main_count_overflows _ _ _ _ _ Hruns Hcount).
Qed.

Lemma deterministic_two_steps :
  runs Demo.c 2 Demo_run.arguments 2
  /\ main Demo.c Demo.h 2 Demo_run.arguments
     = main Demo.c Demo.h' 2 Demo_run.arguments.
Proof.
  split; [exact runs_two_steps|].
  exact (deterministic Demo.c 2 Demo_run.arguments 2 Demo.h Demo.h'
           runs_two_steps).
Defined.

Lemma mass_generated c cfg (i : nat) (b : body_t) :
  generated c cfg !! i = Some b ->
  mass b = F32.mul (initial_body_mass cfg)
             (F32.add (fst (unit_random c (5 * i + 3))) F32.half).
Proof.
  unfold generated. rewrite list_lookup_fmap.
  destruct (seq 0 (Z.to_nat (body_count cfg)) !! i) as [j|] eqn:E; [|done].
  apply lookup_seq in E as [-> _]. intros [= <-].
  unfold generated_body, generate_body, unit_random. cbn [fst snd mass Nat.add].
  by replace (5 * i + 3) with (S (S (S (5 * i)))) by lia.
Qed.

(** C9, as the code has it. In a run that reaches its end, with a body
    count an [int] can hold, no operation after creation changes a mass:
    at the broadcast and after every step each rank's store holds, body
    for body, the masses the generator gave,
    [initial_body_mass * (unit_random() + 0.5f)]; they are strictly
    positive at every such point when the generated ones are. *)
Theorem masses_are_constant c h w_size argv iterations (k : nat) :
  runs c w_size argv iterations ->
  (body_count (parse_arguments c argv) <= INT_MAX)%Z ->
  k <= Z.to_nat iterations ->
  let cfg := parse_arguments c argv in
  exists procs acc next,
    state_after c h w_size argv k = Some (procs, acc, next)
    /\ length procs = w_size
    /\ Forall (fun p => mass <$> bodies p = mass <$> generated c cfg) procs
    /\ (forall i b, generated c cfg !! i = Some b ->
          mass b = F32.mul (initial_body_mass cfg)
                     (F32.add (fst (unit_random c (5 * i + 3))) F32.half))
    /\ (Forall (fun b => F32.positive (mass b) = true) (generated c cfg) ->
        Forall (fun p => Forall (fun b => F32.positive (mass b) = true)
                           (bodies p))
               procs).
Proof.
  intros Hruns Hcount Hk cfg.
  destruct (stores_of_run c h w_size argv iterations k Hruns Hcount Hk)
    as (procs & acc & E & Hw & Hsync).
  assert (Forall (fun p => mass <$> bodies p = mass <$> generated c cfg) procs)
    as Hmass.
  { eapply Forall_impl; [exact Hsync|]. intros p [-> _].
    apply mass_store_after. }
  exists procs, acc, (k * (2 * Z.to_nat (body_count cfg))).
  split; [done|]. split; [done|]. split; [done|]. split.
  - apply mass_generated.
  - intros Hpos. eapply Forall_impl; [exact Hmass|]. intros p Hp.
    apply (Forall_fmap mass (fun m => F32.positive m = true)).
    rewrite Hp. by apply Forall_fmap.
Qed.

Lemma masses_are_constant_two_steps :
  (runs Demo.c 2 Demo_run.arguments 2
   /\ (body_count (parse_arguments Demo.c Demo_run.arguments) <= INT_MAX)%Z
   /\ 1 <= Z.to_nat 2)
  /\ exists procs acc next,
       state_after Demo.c Demo.h 2 Demo_run.arguments 1
       = Some (procs, acc, next)
       /\ length procs = 2
       /\ Forall (fun p => mass <$> bodies p
                           = mass <$> generated Demo.c
                               (parse_arguments Demo.c Demo_run.arguments))
                 procs
       /\ Forall (fun p => Forall (fun b => F32.positive (mass b) = true)
                             (bodies p))
                 procs.
Proof.
  split; [split; [exact runs_two_steps|split; evaluate]|].
  destruct (masses_are_constant Demo.c Demo.h 2 Demo_run.arguments 2 1
              runs_two_steps ltac:(evaluate) ltac:(evaluate))
    as (procs & acc & next & E & Hw & Hm & _ & Hpos).
  exists procs, acc, next. repeat split; try done.
  apply Hpos. vm_compute. repeat constructor.
Defined.

(** C9 fails as stated: an initial body mass of 0 gives every body the
    mass 0, and an initial body mass of -1 gives every body a negative
    mass, in runs that reach their end: after the second and last step no
    body in the store of either rank has a positive mass. *)
Lemma masses_not_positive :
  runs Demo.c 2 Massless.arguments 2
  /\ Massless.positive_masses
       (state_after Demo.c Demo.h 2 Massless.arguments 2)
     = Some [[false; false; false; false]; [false; false; false; false]]
  /\ mass <$> generated Demo.c (parse_arguments Demo.c Massless.arguments)
     = [F32.zero; F32.zero; F32.zero; F32.zero]
  /\ runs Demo.c 2 Massless.negative_arguments 2
  /\ Massless.positive_masses
       (state_after Demo.c Demo.h 2 Massless.negative_arguments 2)
     = Some [[false; false; false; false]; [false; false; false; false]]
  /\ (fun b => SFltb (mass b) F32.zero)
       <$> generated Demo.c (parse_arguments Demo.c Massless.negative_arguments)
     = [true; true; true; true].
Proof. repeat split; evaluate. Qed.

(** ** Symmetries of single precision arithmetic *)

Lemma binary_round_aux_negb (s : bool) (m e : Z) (l : location) :
  binary_round_aux F32.prec F32.emax (negb s) m e l
  = SFopp (binary_round_aux F32.prec F32.emax s m e l).
Proof. unfold binary_round_aux. by repeat case_match. Qed.

Lemma binary_round_true (m : positive) (e : Z) :
  binary_round F32.prec F32.emax true m e
  = SFopp (binary_round F32.prec F32.emax false m e).
Proof.
  unfold binary_round. case_match. apply (binary_round_aux_negb false).
Qed.

Lemma opp_involutive (a : float) : SFopp (SFopp a) = a.
Proof. destruct a; cbn; by rewrite ?negb_involutive. Qed.

Lemma binary_normalize_opp (z e : Z) :
  binary_normalize F32.prec F32.emax (- z) e false
  = SFopp (binary_normalize F32.prec F32.emax z e false)
  \/ (z = 0%Z).
Proof.
  destruct z as [|m|m]; [by right|left..]; cbn [Z.opp binary_normalize].
  - apply binary_round_true.
  - by rewrite binary_round_true, opp_involutive.
Qed.

Lemma sub_antisymmetric (a b : float) :
  F32.sub a b = SFopp (F32.sub b a)
  \/ (F32.sub a b = F32.zero /\ F32.sub b a = F32.zero).
Proof.
  destruct a as [[]|[]| |sa ma ea], b as [[]|[]| |sb mb eb];
    try (by left); try (by right);
    try (left; cbn; by rewrite negb_involutive).
  - unfold F32.sub, SFsub. rewrite (Z.min_comm eb ea).
    set (za := cond_Zopp sa _). set (zb := cond_Zopp sb _).
    replace (za - zb)%Z with (- (zb - za))%Z by lia.
    destruct (binary_normalize_opp (zb - za) (Z.min ea eb)) as [?|E];
      [by left|right].
    by rewrite E.
Qed.

Lemma mul_opp_l (a b : float) : F32.mul (SFopp a) b = SFopp (F32.mul a b).
Proof.
  destruct a as [sa|sa| |sa ma ea], b as [sb|sb| |sb mb eb]; cbn;
    try done; try (by rewrite <- negb_xorb_l).
  unfold F32.mul, SFmul. rewrite <- negb_xorb_l. apply binary_round_aux_negb.
Qed.

Lemma mul_opp_r (a b : float) : F32.mul a (SFopp b) = SFopp (F32.mul a b).
Proof.
  destruct a as [sa|sa| |sa ma ea], b as [sb|sb| |sb mb eb]; cbn;
    try done; try (by rewrite <- negb_xorb_r).
  unfold F32.mul, SFmul. rewrite <- negb_xorb_r. apply binary_round_aux_negb.
Qed.

Lemma square_opp (a : float) : F32.mul (SFopp a) (SFopp a) = F32.mul a a.
Proof. by rewrite mul_opp_l, mul_opp_r, opp_involutive. Qed.

Lemma add_zero_opp (v : float) :
  opposite (F32.add F32.zero (SFopp v)) (F32.add F32.zero v).
Proof. unfold opposite. destruct v as [[]|[]| |[] m e]; cbn; auto. Qed.

Lemma mul_zero_cases (k : float) :
  F32.mul F32.zero k = S754_nan \/ F32.is_zero (F32.mul F32.zero k) = true.
Proof. destruct k as [[]|[]| |[] m e]; cbn; auto. Qed.

Lemma add_zero_opposite_self (v : float) :
  v = S754_nan \/ F32.is_zero v = true ->
  opposite (F32.add F32.zero v) (F32.add F32.zero v).
Proof.
  unfold opposite. destruct v as [[]|[]| |[] m e]; cbn; intros [?|?];
    try done; auto.
Qed.

(** ** Action and reaction (the kernel) *)

Lemma displacement_component (d d' k : float) :
  d' = SFopp d \/ (d' = F32.zero /\ d = F32.zero) ->
  F32.mul d' d' = F32.mul d d
  /\ opposite (F32.add F32.zero (F32.mul d' k)) (F32.add F32.zero (F32.mul d k)).
Proof.
  intros [->|[-> ->]].
  - split; [apply square_opp|]. rewrite mul_opp_l. apply add_zero_opp.
  - split; [done|]. apply add_zero_opposite_self, mul_zero_cases.
Qed.

(** Two bodies of equal mass accelerate each other by opposite amounts:
    the kernel's result for the pair taken one way round is, component by
    component, the negation of its result for the pair taken the other
    way round (or both are zero). *)
Theorem kernel_action_reaction (s2 : float) (a b : body_t) :
  mass a = mass b ->
  opposite (fst (calculate_newton_gravity_acceleration s2 b a))
           (fst (calculate_newton_gravity_acceleration s2 a b))
  /\ opposite (snd (calculate_newton_gravity_acceleration s2 b a))
              (snd (calculate_newton_gravity_acceleration s2 a b)).
Proof.
  intros Hm. rewrite !kernel_unfold. cbv zeta.
  unfold Spec.displacement, Spec.norm_squared. cbn [fst snd]. rewrite Hm.
  set (k d2 := F32.mul (mass b) (Spec.inverse_cubed (F32.add d2 s2))).
  destruct (displacement_component (F32.sub (x b) (x a)) (F32.sub (x a) (x b))
              (k (F32.add (F32.mul (F32.sub (x b) (x a)) (F32.sub (x b) (x a)))
                          (F32.mul (F32.sub (y b) (y a)) (F32.sub (y b) (y a))))))
    as [Hx Ox]; [apply sub_antisymmetric|].
  destruct (displacement_component (F32.sub (y b) (y a)) (F32.sub (y a) (y b))
              (k (F32.add (F32.mul (F32.sub (x b) (x a)) (F32.sub (x b) (x a)))
                          (F32.mul (F32.sub (y b) (y a)) (F32.sub (y b) (y a))))))
    as [Hy Oy]; [apply sub_antisymmetric|].
  rewrite Hx, Hy. by split.
Qed.

Lemma kernel_action_reaction_pair :
  mass Pair.left_body = mass Pair.right_body
  /\ opposite
       (fst (calculate_newton_gravity_acceleration F32.one
               Pair.right_body Pair.left_body))
       (fst (calculate_newton_gravity_acceleration F32.one
               Pair.left_body Pair.right_body)).
Proof.
  split; [reflexivity|].
  exact (proj1 (kernel_action_reaction F32.one Pair.left_body Pair.right_body
                  eq_refl)).
Defined.

(** ** What a step reads, and what the worker count changes *)

Lemma acceleration_of_advanced cfg s2 (bs : list body_t) (i : nat) (b : body_t) :
  acceleration_of (advance cfg (accelerated s2 bs i b))
  = net_acceleration s2 b (delete i bs).
Proof.
  unfold acceleration_of, advance, accelerated.
  by destruct (net_acceleration s2 b (delete i bs)).
Qed.

Lemma lookup_geometry (bs bs' : list body_t) (i : nat) (b : body_t) :
  geometry <$> bs = geometry <$> bs' -> bs !! i = Some b ->
  exists b', bs' !! i = Some b' /\ geometry b = geometry b'.
Proof.
  intros Hg Hb.
  assert ((geometry <$> bs') !! i = Some (geometry b)) as H
    by (by rewrite <- Hg, list_lookup_fmap, Hb).
  rewrite list_lookup_fmap in H.
  destruct (bs' !! i) as [b'|]; [|done]. exists b'. split; [done|].
  cbn [fmap option_fmap option_map] in H. congruence.
Qed.

Lemma accelerations_of_slice cfg w_size (bs bs' : list body_t) (rank : nat) :
  geometry <$> bs = geometry <$> bs' ->
  acceleration_of <$> advanced_slice cfg w_size bs rank
  = acceleration_of <$> advanced_slice cfg w_size bs' rank.
Proof.
  intros Hg. unfold advanced_slice, accelerated_slice, owned.
  rewrite <- !list_fmap_compose, !fmap_imap.
  apply list_eq. intros j. rewrite !list_lookup_imap.
  set (len := Z.to_nat (bodies_per_process (body_count cfg) w_size)).
  destruct (decide (j < len)) as [Hj|Hj].
  - rewrite !lookup_take_lt, !lookup_drop by done.
    destruct (bs !! (rank * len + j)) as [b|] eqn:Hb.
    + destruct (lookup_geometry bs bs' _ b Hg Hb) as (b' & -> & Hgb).
      cbn. f_equal. rewrite !acceleration_of_advanced.
      apply net_acceleration_geometry; [done|].
      by rewrite !list_fmap_delete, Hg.
    + assert (bs' !! (rank * len + j) = None) as ->; [|done].
      apply lookup_ge_None. apply lookup_ge_None in Hb.
      by rewrite <- (length_fmap geometry), <- Hg, length_fmap.
  - by rewrite !lookup_take_ge by lia.
Qed.

(** The accelerations a worker computes in a step depend on the positions
    and masses in its store, and on nothing else in it: two stores that
    agree on those give the owned bodies the same accelerations, whatever
    velocities and accelerations the stores hold. *)
Theorem accelerations_recomputed (cfg : config) (w_size rank : nat)
    (p p' : process) :
  (0 <= body_count cfg < 2 ^ SIZE_WIDTH)%Z ->
  0 < w_size ->
  divisible (body_count cfg) w_size = true ->
  rank < w_size ->
  length (bodies p) = Z.to_nat (body_count cfg) ->
  length (local_bodies p)
  = Z.to_nat (bodies_per_process (body_count cfg) w_size) ->
  length (local_bodies p')
  = Z.to_nat (bodies_per_process (body_count cfg) w_size) ->
  geometry <$> bodies p = geometry <$> bodies p' ->
  exists q q',
    worker_step cfg w_size rank p = Some q
    /\ worker_step cfg w_size rank p' = Some q'
    /\ acceleration_of <$> local_bodies q = acceleration_of <$> local_bodies q'.
Proof.
  intros Hn Hw Heven Hr Hbs Hloc Hloc' Hg.
  assert (length (bodies p') = Z.to_nat (body_count cfg)) as Hbs'
    by (by rewrite <- (length_fmap geometry), <- Hg, length_fmap).
  rewrite (worker_step_closed cfg w_size Hn Hw Heven rank p Hr Hbs Hloc).
  rewrite (worker_step_closed cfg w_size Hn Hw Heven rank p' Hr Hbs' Hloc').
  eexists _, _. split; [done|]. split; [done|].
  cbn [local_bodies]. by apply accelerations_of_slice.
Qed.

Lemma accelerations_recomputed_pair :
  (length (bodies Pair.p) = Z.to_nat (body_count Pair.cfg)
   /\ geometry <$> bodies Pair.p = geometry <$> bodies Tampered.p
   /\ bodies Pair.p <> bodies Tampered.p)
  /\ exists q q',
       worker_step Pair.cfg 1 0 Pair.p = Some q
       /\ worker_step Pair.cfg 1 0 Tampered.p = Some q'
       /\ acceleration_of <$> local_bodies q
          = acceleration_of <$> local_bodies q'.
Proof.
  split; [split; [reflexivity|split; [vm_compute; reflexivity|discriminate]]|].
  apply (accelerations_recomputed Pair.cfg 1 0 Pair.p Tampered.p); evaluate.
Defined.


(** ** The job and the number of workers *)

(** The leader's output does not depend on the number of workers: two jobs
    with the same arguments and the same C library print the same lines and
    exit alike on rank 0, for any two worker counts that divide the body
    count. *)
Theorem worker_count_independent c (h h' : heap) (w_size w_size' : nat)
    argv iterations :
  runs c w_size argv iterations -> runs c w_size' argv iterations ->
  (body_count (parse_arguments c argv) <= INT_MAX)%Z ->
  main c h w_size argv !! 0 = main c h' w_size' argv !! 0.
Proof.
  intros Hruns Hruns' Hcount.
  by rewrite (main_leader _ _ _ _ _ Hruns Hcount),
             (main_leader _ _ _ _ _ Hruns' Hcount).
Qed.

Lemma worker_count_independent_demo :
  (runs Demo.c 1 Demo_run.arguments 2 /\ runs Demo.c 4 Demo_run.arguments 2
   /\ (body_count (parse_arguments Demo.c Demo_run.arguments) <= INT_MAX)%Z)
  /\ main Demo.c Demo.h 1 Demo_run.arguments !! 0
     = main Demo.c Demo.h' 4 Demo_run.arguments !! 0.
Proof.
  assert (runs Demo.c 1 Demo_run.arguments 2) as H1 by (split; evaluate).
  assert (runs Demo.c 4 Demo_run.arguments 2) as H4 by (split; evaluate).
  assert (body_count (parse_arguments Demo.c Demo_run.arguments) <= INT_MAX)%Z
    as Hcount by evaluate.
  split; [split; [exact H1|split; [exact H4|exact Hcount]]|].
  exact (worker_count_independent Demo.c Demo.h Demo.h' 1 4
           Demo_run.arguments 2 H1 H4 Hcount).
Defined.

(** In a job that reaches its end only the leader writes: every other rank
    leaves both streams empty and exits successfully. *)
Theorem only_the_leader_writes c h w_size argv iterations (rank : nat)
    (r : result) :
  runs c w_size argv iterations ->
  (body_count (parse_arguments c argv) <= INT_MAX)%Z ->
  main c h w_size argv !! rank = Some r -> rank <> 0 ->
  stdout r = [] /\ stderr r = [] /\ exit_status r = EXIT_SUCCESS.
Proof.
  intros Hruns Hcount Hr Hrank.
  rewrite (main_closed _ _ _ _ _ Hruns Hcount) in Hr.
  rewrite list_lookup_fmap in Hr.
  destruct (seq 0 w_size !! rank) as [j|] eqn:E; [|done].
  apply lookup_seq in E as [-> _]. injection Hr as <-.
  unfold completed. by rewrite decide_False.
Qed.

Lemma only_the_leader_writes_demo :
  (runs Demo.c 2 Demo_run.arguments 2
   /\ (body_count (parse_arguments Demo.c Demo_run.arguments) <= INT_MAX)%Z)
  /\ exists r,
       main Demo.c Demo.h 2 Demo_run.arguments !! 1 = Some r
       /\ stdout r = [] /\ stderr r = [] /\ exit_status r = EXIT_SUCCESS.
Proof.
  assert (body_count (parse_arguments Demo.c Demo_run.arguments) <= INT_MAX)%Z
    as Hcount by evaluate.
  assert (main Demo.c Demo.h 2 Demo_run.arguments !! 1
          = Some (Result [] [] EXIT_SUCCESS)) as E.
  { by rewrite (main_closed _ _ _ _ _ runs_two_steps Hcount). }
  split; [split; [exact runs_two_steps|exact Hcount]|].
  exists (Result [] [] EXIT_SUCCESS). split; [exact E|].
  exact (only_the_leader_writes Demo.c Demo.h 2 Demo_run.arguments 2 1 _
           runs_two_steps Hcount E ltac:(discriminate)).
Defined.

(** ** Allocations that fail, and sizes that wrap *)





Lemma div_zero_not_finite (a z : float) :
  F32.is_zero z = true -> F32.trunc (F32.div a z) = None.
Proof.
  destruct z as [s|?| |? ? ?]; try done. intros _.
  by destruct a as [[]|[]| |[] m e].
Qed.

(** With a time step of 0 the quotient of the time period by it is
    infinite or NaN, the step count has no value, and no rank of a job with
    enough arguments exits successfully: each aborts on an assertion or
    runs into the undefined conversion. *)
Theorem zero_time_step c h w_size argv :
  (6 <= argc argv)%Z ->
  F32.is_zero (delta_time (parse_arguments c argv)) = true ->
  iterations_of (parse_arguments c argv) = None
  /\ (forall rank, ready (start c h w_size argv rank) = None)
  /\ Forall (fun r => exit_status r = SIGABRT \/ exit_status r = UNDEFINED)
       (main c h w_size argv).
Proof.
  intros Hargs Hzero.
  assert (iterations_of (parse_arguments c argv) = None) as Hit.
  { unfold iterations_of, to_size_t. by rewrite div_zero_not_finite. }
  assert (forall rank,
            exists r, start c h w_size argv rank = Stopped r
                      /\ (exit_status r = SIGABRT \/ exit_status r = UNDEFINED))
    as Hstart.
  { intros rank. unfold start, aborted. rewrite Hit.
    destruct (Z.ltb_spec (argc argv) 6) as [?|_]; [lia|].
    repeat case_match; eexists; (split; [reflexivity|]); cbn; auto. }
  split; [done|]. split.
  { intros rank. by destruct (Hstart rank) as (r & -> & _). }
  rewrite (main_stopped c h w_size argv
             (fun rank => stopped_result c (start c h w_size argv rank))).
  - apply Forall_fmap, Forall_seq. intros rank _. cbn.
    by destruct (Hstart rank) as (r & -> & Hr).
  - intros rank. by destruct (Hstart rank) as (r & -> & _).
Qed.

Lemma zero_time_step_demo :
  ((6 <= argc (Demo.argv "2" "0" "4" "1" "1"))%Z
   /\ F32.is_zero
        (delta_time (parse_arguments Demo.c (Demo.argv "2" "0" "4" "1" "1")))
      = true)
  /\ iterations_of (parse_arguments Demo.c (Demo.argv "2" "0" "4" "1" "1"))
     = None.
Proof.
  split; [split; evaluate|].
  refine (proj1 (zero_time_step Demo.c Demo.h 2
                   (Demo.argv "2" "0" "4" "1" "1") _ _)); evaluate.
Defined.

Lemma arg_app (argv extra : list string) (i : nat) :
  i < length argv -> arg (argv ++ extra) i = arg argv i.
Proof. intros Hi. unfold arg. by apply app_nth1. Qed.

Lemma parse_arguments_app c (argv extra : list string) :
  7 <= length argv ->
  parse_arguments c (argv ++ extra) = parse_arguments c argv.
Proof.
  intros Hlen. unfold parse_arguments, argc.
  rewrite !arg_app by lia. rewrite length_app.
  destruct (Z.ltb_spec 6 (Z.of_nat (length argv + length extra))); [|lia].
  by destruct (Z.ltb_spec 6 (Z.of_nat (length argv))); [|lia].
Qed.

(** Arguments after the sixth, the debug acceleration scale, are never
    read: they change nothing in what the job does. *)
Theorem trailing_arguments_ignored c h w_size (argv extra : list string) :
  7 <= length argv ->
  main c h w_size (argv ++ extra) = main c h w_size argv.
Proof.
  intros Hlen.
  assert (forall rank,
            start c h w_size (argv ++ extra) rank = start c h w_size argv rank)
    as Hstart.
  { intros rank. unfold start. rewrite parse_arguments_app by done.
    unfold argc. rewrite length_app.
    destruct (Z.ltb_spec (Z.of_nat (length argv + length extra)) 6); [lia|].
    by destruct (Z.ltb_spec (Z.of_nat (length argv)) 6); [lia|]. }
  unfold main. rewrite parse_arguments_app by done.
  by rewrite (list_fmap_ext _ _ _ (fun _ rank _ => Hstart rank)).
Qed.

Lemma trailing_arguments_ignored_demo :
  7 <= length (Demo_run.arguments ++ ["100"]%string)
  /\ main Demo.c Demo.h 2
       ((Demo_run.arguments ++ ["100"]%string) ++ ["7"; "8"]%string)
     = main Demo.c Demo.h 2 (Demo_run.arguments ++ ["100"]%string).
Proof.
  split; [evaluate|].
  apply (trailing_arguments_ignored Demo.c Demo.h 2
           (Demo_run.arguments ++ ["100"]%string) ["7"; "8"]%string).
  evaluate.
Defined.

(** ** The generator and the size of the store *)

Lemma for_loop_fails {T} (P : nat -> T -> Prop) (count lo m : nat)
    (body : nat -> T -> option T) (s : T) :
  m < count -> P 0 s ->
  (forall k s, k < m -> P k s ->
     exists s', body (lo + k) s = Some s' /\ P (S k) s') ->
  (forall s, P m s -> body (lo + m) s = None) ->
  for_loop count lo body s = None.
Proof.
  revert P lo m s.
  induction count as [|count IH]; intros P lo m s Hm H0 Hstep Hfail; [lia|].
  destruct m as [|m].
  - cbn. rewrite <- (Nat.add_0_r lo). by rewrite (Hfail s H0).
  - destruct (Hstep 0 s) as (s1 & E1 & P1); [lia|done|].
    rewrite Nat.add_0_r in E1. cbn. rewrite E1. cbn.
    apply (IH (fun k => P (S k)) (S lo) m s1); [lia|done| |].
    + intros k s2 Hk HP.
      destruct (Hstep (S k) s2) as (s3 & E3 & P3); [lia|done|].
      exists s3. split; [|done].
      by replace (S lo + k) with (lo + S k) by lia.
    + intros s2 HP. replace (S lo + m) with (lo + S m) by lia.
      by apply Hfail.
Qed.

Lemma generate_debug_data_overrun c (mass scale : float) (buf : list body_t)
    (n : Z) :
  length buf < Z.to_nat n ->
  generate_debug_data c mass scale buf n = None.
Proof.
  intros Hshort. unfold generate_debug_data.
  rewrite (for_loop_fails
             (fun _ '(bodies, _) => length bodies = length buf)
             (Z.to_nat n) 0 (length buf)); try done.
  - intros k [bodies calls] Hk Hlen. cbn [Nat.add].
    destruct (generate_body c mass scale n k calls) as [body calls'].
    unfold store. rewrite decide_True by lia. cbn.
    eexists. split; [reflexivity|]. cbv beta iota. by rewrite length_insert.
  - intros [bodies calls] Hlen. cbn [Nat.add].
    destruct (generate_body c mass scale n (length buf) calls) as [body calls'].
    unfold store. by rewrite decide_False by lia.
Qed.

Lemma acceleration_generated c cfg (i : nat) :
  acceleration_of (generated_body c cfg i) = (F32.zero, F32.zero).
Proof. reflexivity. Qed.

(** The generator overwrites the first [body_count] bodies of its buffer
    and leaves the others as they are; what it writes does not depend on
    what the buffer held, and every body it writes has the acceleration
    zero. A buffer of fewer than [body_count] bodies is overrun. *)
Theorem generator_writes_the_store c cfg (buf buf' : list body_t) :
  let n := Z.to_nat (body_count cfg) in
  let generate :=
    generate_debug_data c (initial_body_mass cfg)
      (debug_acceleration_scale cfg) in
  (n <= length buf -> n <= length buf' ->
   exists bs,
     length bs = n
     /\ generate buf (body_count cfg) = Some (bs ++ drop n buf)
     /\ generate buf' (body_count cfg) = Some (bs ++ drop n buf')
     /\ Forall (fun b => ax b = F32.zero /\ ay b = F32.zero) bs)
  /\ (length buf < n -> generate buf (body_count cfg) = None).
Proof.
  intros n generate. split.
  - intros Hbuf Hbuf'. exists (generated c cfg).
    split; [apply length_generated|].
    split; [by apply generate_debug_data_closed|].
    split; [by apply generate_debug_data_closed|].
    apply Forall_fmap, Forall_seq. by intros i _.
  - intros Hshort. by apply generate_debug_data_overrun.
Qed.

Lemma generator_writes_the_store_demo :
  (Z.to_nat (body_count Pair.cfg) <= length [Demo.nowhere; Demo.nowhere; Demo.origin]
   /\ length [Demo.origin] < Z.to_nat (body_count Pair.cfg))
  /\ (exists bs,
        length bs = 2
        /\ generate_debug_data Demo.c (initial_body_mass Pair.cfg)
             (debug_acceleration_scale Pair.cfg)
             [Demo.nowhere; Demo.nowhere; Demo.origin] (body_count Pair.cfg)
           = Some (bs ++ [Demo.origin]))
  /\ generate_debug_data Demo.c (initial_body_mass Pair.cfg)
       (debug_acceleration_scale Pair.cfg) [Demo.origin] (body_count Pair.cfg)
     = None.
Proof.
  split; [split; evaluate|]. split.
  - destruct (proj1 (generator_writes_the_store Demo.c Pair.cfg
                       [Demo.nowhere; Demo.nowhere; Demo.origin]
                       [Demo.nowhere; Demo.nowhere; Demo.origin]))
      as (bs & Hlen & E & _); [evaluate..|].
    exists bs. by split.
  - apply (proj2 (generator_writes_the_store Demo.c Pair.cfg
                    [Demo.origin] [Demo.origin])).
    evaluate.
Defined.

(** The size of the store is computed in [size_t] and never checked: when
    [sizeof(body_t) * body_count] wraps and [malloc] returns a block of the
    wrapped size, the block holds fewer than [body_count] bodies and the
    leader overruns it while it generates them. *)
Theorem store_size_wraps c h w_size argv :
  (6 <= argc argv)%Z -> 0 < w_size ->
  (2 ^ SIZE_WIDTH <= sizeof_body_t * body_count (parse_arguments c argv))%Z ->
  malloc_ok c (wrap (sizeof_body_t * body_count (parse_arguments c argv)))
  = true ->
  (wrap (sizeof_body_t * body_count (parse_arguments c argv)) / sizeof_body_t
   < body_count (parse_arguments c argv))%Z
  /\ start c h w_size argv 0 = Stopped (Result [] [] UNDEFINED)
  /\ main c h w_size argv !! 0 = Some (Result [] [] UNDEFINED).
Proof.
  intros Hargs Hw Hwraps Hok.
  pose proof (body_count_range c argv) as Hn.
  set (n := body_count (parse_arguments c argv)) in *.
  assert (wrap (sizeof_body_t * n) / sizeof_body_t < n)%Z as Hfewer.
  { unfold wrap, sizeof_body_t, SIZE_WIDTH in *.
    apply Z.div_lt_upper_bound; [lia|].
    pose proof (Z.mod_pos_bound (28 * n) (2 ^ 64)).
    assert (28 * n mod 2 ^ 64 = 28 * n - 2 ^ 64 * (28 * n / 2 ^ 64))%Z
      by (apply Z.mod_eq; lia).
    assert (1 <= 28 * n / 2 ^ 64)%Z by (apply Z.div_le_lower_bound; lia).
    lia. }
  assert (start c h w_size argv 0 = Stopped (Result [] [] UNDEFINED)) as Hstart.
  { unfold start.
    destruct (Z.ltb_spec (argc argv) 6) as [?|_]; [lia|].
    fold n. rewrite Hok. cbn [negb]. rewrite decide_True by done.
    rewrite generate_debug_data_overrun; [done|].
    unfold malloc. rewrite length_fmap, length_seq.
    pose proof (Z.div_pos (wrap (sizeof_body_t * n)) sizeof_body_t).
    unfold wrap in *.
    pose proof (Z.mod_pos_bound (sizeof_body_t * n) (2 ^ SIZE_WIDTH)).
    unfold sizeof_body_t, SIZE_WIDTH in *. lia. }
  split; [done|]. split; [done|].
  rewrite main_leader_stopped by (done || by rewrite Hstart).
  rewrite list_lookup_fmap, lookup_seq_lt by done. cbn. by rewrite Hstart.
Qed.

Lemma store_size_wraps_demo :
  ((6 <= argc (Demo.argv "2" "1" "658812288346769701" "1" "1"))%Z
   /\ wrap (sizeof_body_t
            * body_count
                (parse_arguments Demo.c
                   (Demo.argv "2" "1" "658812288346769701" "1" "1")))
      = 12%Z)
  /\ start Demo.c Demo.h 1 (Demo.argv "2" "1" "658812288346769701" "1" "1") 0
     = Stopped (Result [] [] UNDEFINED).
Proof.
  split; [split; evaluate|].
  refine (proj1 (proj2 (store_size_wraps Demo.c Demo.h 1
                          (Demo.argv "2" "1" "658812288346769701" "1" "1")
                          _ _ _ _))); evaluate.
Defined.

(** ** The trace and the length of the run *)

Lemma next_store_same_step cfg cfg' (bs : list body_t) :
  simulation_softening_length_squared cfg
  = simulation_softening_length_squared cfg' ->
  delta_time cfg = delta_time cfg' ->
  next_store cfg bs = next_store cfg' bs.
Proof. unfold next_store, advance. by intros -> ->. Qed.

Lemma store_after_same_step cfg cfg' (bs : list body_t) (k : nat) :
  simulation_softening_length_squared cfg
  = simulation_softening_length_squared cfg' ->
  delta_time cfg = delta_time cfg' ->
  store_after cfg bs k = store_after cfg' bs k.
Proof.
  intros Hs Hdt. induction k as [|k IH]; [done|].
  change (next_store cfg (store_after cfg bs k)
          = next_store cfg' (store_after cfg' bs k)).
  rewrite IH. by apply next_store_same_step.
Qed.

Lemma traced_same_step cfg cfg' (bs : list body_t) (k : nat) :
  simulation_softening_length_squared cfg
  = simulation_softening_length_squared cfg' ->
  delta_time cfg = delta_time cfg' ->
  traced cfg bs k = traced cfg' bs k.
Proof.
  intros Hs Hdt. unfold traced. f_equal. apply list_fmap_ext. intros _ j _.
  by apply store_after_same_step.
Qed.

Lemma traced_prefix cfg (bs : list body_t) (k k' : nat) :
  k <= k' -> traced cfg bs k `prefix_of` traced cfg bs k'.
Proof.
  induction 1 as [|k' _ IH]; [done|].
  rewrite traced_S. by apply prefix_app_r.
Qed.

Lemma parse_same_but_time_period c (argv argv' : list string) :
  same_but_time_period argv argv' ->
  parse_arguments c argv'
  = Config (time_period (parse_arguments c argv'))
      (delta_time (parse_arguments c argv))
      (body_count (parse_arguments c argv))
      (initial_body_mass (parse_arguments c argv))
      (simulation_softening_length_squared (parse_arguments c argv))
      (debug_acceleration_scale (parse_arguments c argv)).
Proof.
  intros [Hargc Harg]. unfold parse_arguments. cbn.
  by rewrite Hargc, !Harg by done.
Qed.

(** The steps do not depend on how many of them are made: of two jobs
    whose arguments differ in the time period at most, the one with fewer
    steps prints a trace that begins the trace of the other; both traces
    follow a header and an initial state of the same length. *)
Theorem longer_run_extends_trace c (h h' : heap) (w_size : nat)
    (argv argv' : list string) (iterations iterations' : Z) :
  runs c w_size argv iterations -> runs c w_size argv' iterations' ->
  (body_count (parse_arguments c argv) <= INT_MAX)%Z ->
  same_but_time_period argv argv' ->
  (iterations <= iterations')%Z ->
  exists initial initial' trace trace',
    main c h w_size argv !! 0
    = Some (Result (initial ++ trace) [] EXIT_SUCCESS)
    /\ main c h' w_size argv' !! 0
       = Some (Result (initial' ++ trace') [] EXIT_SUCCESS)
    /\ length initial
       = 3 + 4 * Z.to_nat (body_count (parse_arguments c argv))
    /\ length initial' = length initial
    /\ length trace
       = Z.to_nat iterations * Z.to_nat (body_count (parse_arguments c argv))
    /\ trace `prefix_of` trace'.
Proof.
  intros Hruns Hruns' Hcount Hsame Hle.
  pose proof (parse_same_but_time_period c argv argv' Hsame) as Hparse.
  set (cfg := parse_arguments c argv) in *.
  set (cfg' := parse_arguments c argv') in *.
  assert (body_count cfg' = body_count cfg) as Hn by (by rewrite Hparse).
  assert (generated c cfg' = generated c cfg) as Hgen.
  { unfold generated, generated_body. by rewrite Hparse. }
  exists (initial_output c cfg), (initial_output c cfg'),
         (trace_lines c cfg iterations), (trace_lines c cfg' iterations').
  split; [by rewrite (main_leader _ _ _ _ _ Hruns Hcount)|].
  split.
  { rewrite (main_leader _ _ _ _ _ Hruns'); [done|]. fold cfg'. by rewrite Hn. }
  destruct (initial_output_shown c cfg) as [Hlen _].
  destruct (initial_output_shown c cfg') as [Hlen' _].
  rewrite length_generated in Hlen, Hlen'.
  split; [done|]. split; [by rewrite Hlen, Hlen', Hn|].
  split.
  { unfold trace_lines.
    by rewrite length_fmap, length_traced, length_generated. }
  unfold trace_lines. rewrite Hgen.
  rewrite (traced_same_step cfg' cfg) by (by rewrite Hparse).
  destruct (traced_prefix cfg (generated c cfg) (Z.to_nat iterations)
              (Z.to_nat iterations')) as [rest ->]; [lia|].
  eexists. apply fmap_app.
Qed.

Lemma longer_run_extends_trace_demo :
  (runs Demo.c 2 Demo_run.short_arguments 0
   /\ runs Demo.c 2 (Demo.argv "2" "2" "2" "1" "1") 1
   /\ same_but_time_period Demo_run.short_arguments
        (Demo.argv "2" "2" "2" "1" "1"))
  /\ exists initial initial' trace trace',
       main Demo.c Demo.h 2 Demo_run.short_arguments !! 0
       = Some (Result (initial ++ trace) [] EXIT_SUCCESS)
       /\ main Demo.c Demo.h' 2 (Demo.argv "2" "2" "2" "1" "1") !! 0
          = Some (Result (initial' ++ trace') [] EXIT_SUCCESS)
       /\ trace `prefix_of` trace'.
Proof.
  assert (runs Demo.c 2 Demo_run.short_arguments 0) as H0 by (split; evaluate).
  assert (runs Demo.c 2 (Demo.argv "2" "2" "2" "1" "1") 1) as H1
    by (split; evaluate).
  assert (same_but_time_period Demo_run.short_arguments
            (Demo.argv "2" "2" "2" "1" "1")) as Hsame.
  { split; [reflexivity|]. intros [|[|i]] Hi; [reflexivity|done|reflexivity]. }
  split; [split; [exact H0|split; [exact H1|exact Hsame]]|].
  destruct (longer_run_extends_trace Demo.c Demo.h Demo.h' 2
              Demo_run.short_arguments (Demo.argv "2" "2" "2" "1" "1") 0 1
              H0 H1 ltac:(evaluate) Hsame ltac:(evaluate))
    as (initial & initial' & trace & trace' & E & E' & _ & _ & _ & Hpre).
  by exists initial, initial', trace, trace'.
Defined.

(** ** A body alone *)

Lemma next_store_alone cfg (b : body_t) :
  exists b', next_store cfg [b] = [b']
             /\ acceleration_of b' = (F32.zero, F32.zero).
Proof. eexists. split; reflexivity. Qed.

Lemma store_after_alone cfg (b : body_t) (k : nat) :
  exists b', store_after cfg [b] (S k) = [b']
             /\ acceleration_of b' = (F32.zero, F32.zero).
Proof.
  change (store_after cfg [b] (S k))
    with (next_store cfg (store_after cfg [b] k)).
  pose proof (length_store_after cfg [b] k) as Hlen.
  destruct (store_after cfg [b] k) as [|b1 [|? ?]]; [done| |done].
  apply next_store_alone.
Qed.

Lemma trace_alone cfg (b : body_t) (k : nat) :
  (fun b => Line_ff (ax b) (ay b)) <$> traced cfg [b] k
  = replicate k (Line_ff F32.zero F32.zero).
Proof.
  induction k as [|k IH]; [done|].
  rewrite traced_S, fmap_app, IH, replicate_S_end. f_equal.
  destruct (store_after_alone cfg b k) as (b' & -> & Hb').
  injection Hb' as Hx Hy. cbn. by rewrite Hx, Hy.
Qed.

(** A body alone in the store feels no force: the sum over the other
    bodies is empty, the body itself being skipped, and every line of the
    trace shows the acceleration zero. *)
Theorem lone_body_feels_no_force c h argv iterations :
  runs c 1 argv iterations ->
  body_count (parse_arguments c argv) = 1%Z ->
  exists initial,
    length initial = 7
    /\ main c h 1 argv
       = [Result (initial
                  ++ replicate (Z.to_nat iterations)
                       (Line_ff F32.zero F32.zero))
                 [] EXIT_SUCCESS].
Proof.
  intros Hruns Hone.
  assert (body_count (parse_arguments c argv) <= INT_MAX)%Z as Hcount
    by (by rewrite Hone).
  exists (initial_output c (parse_arguments c argv)). split.
  { destruct (initial_output_shown c (parse_arguments c argv)) as [-> _].
    by rewrite length_generated, Hone. }
  rewrite (main_closed _ _ _ _ _ Hruns Hcount). cbn [seq fmap list_fmap].
  unfold completed, leader_output, trace_lines. rewrite decide_True by done.
  do 3 f_equal.
  assert (exists b, generated c (parse_arguments c argv) = [b]) as [b ->].
  { unfold generated. rewrite Hone. by eexists. }
  by apply trace_alone.
Qed.

Lemma lone_body_feels_no_force_demo :
  (runs Demo.c 1 (Demo.argv "2" "1" "1" "1" "1") 2
   /\ body_count (parse_arguments Demo.c (Demo.argv "2" "1" "1" "1" "1")) = 1%Z)
  /\ exists initial,
       length initial = 7
       /\ main Demo.c Demo.h 1 (Demo.argv "2" "1" "1" "1" "1")
          = [Result (initial ++ [Line_ff F32.zero F32.zero;
                                 Line_ff F32.zero F32.zero])
                    [] EXIT_SUCCESS].
Proof.
  assert (runs Demo.c 1 (Demo.argv "2" "1" "1" "1" "1") 2) as Hruns
    by (split; evaluate).
  split; [split; [exact Hruns|reflexivity]|].
  exact (lone_body_feels_no_force Demo.c Demo.h
           (Demo.argv "2" "1" "1" "1" "1") 2 Hruns eq_refl).
Defined.
